(** * canvas2video: the encoder of [src/encoder.ts]

    A shallow embedding of the TypeScript encoder ([typeCheck], [createDir]
    and [encoder]) together with the parts of the JavaScript run time it
    leans on: dynamically typed values, truthiness, [typeof], string
    conversion, [Number.prototype.toFixed], [parseFloat], exceptions and the
    settle-once behaviour of a [Promise].

    Layout: [Js] holds the language-level model, [Node] the boundary with
    [fs], [path], [console], fluent-ffmpeg and cli-progress, [Encoder] the
    three functions of the source file, and the theorems come last. *)

From Stdlib Require Import ZArith NArith List Bool Ascii String Lia.
Import ListNotations.

Local Open Scope string_scope.
Local Open Scope Z_scope.

(* ================================================================== *)
(** ** JavaScript values *)
(* ================================================================== *)

Module Js.

(** *** Numbers

    A number is a binary64 value: NaN, an infinity, or a finite value
    [mant * 2^exp] kept exactly.  The values the language has are those
    with [|mant| < 2^53], [exp >= -1074] and magnitude below [2^1024];
    everything that produces a number ([of_Z], [of_decimal], [parseFloat])
    rounds to the nearest of them, ties to even, and returns it with an odd
    mantissa (or as [Finite 0 0]).  The sign of zero is not tracked. *)
Inductive number : Type :=
| NaN
| Infinity (negative : bool)
| Finite (mant : Z) (exp : Z).

Definition pow10 (k : nat) : Z := 10 ^ Z.of_nat k.

(** The exact value of [mant * 2^exp] as a fraction. *)
Definition numerator (mant exp : Z) : Z :=
  if 0 <=? exp then mant * 2 ^ exp else mant.

Definition denominator (exp : Z) : Z :=
  if 0 <=? exp then 1 else 2 ^ (- exp).

(** Numeric order on finite numbers, by cross multiplication. *)
Definition finite_leb (m1 e1 m2 e2 : Z) : bool :=
  numerator m1 e1 * denominator e2 <=? numerator m2 e2 * denominator e1.

(** [x <= y] in the sense of the language: false as soon as one side is NaN. *)
Definition number_leb (x y : number) : bool :=
  match x, y with
  | NaN, _ | _, NaN => false
  | Infinity true, _ => true
  | _, Infinity false => true
  | Infinity false, _ => false
  | _, Infinity true => false
  | Finite m1 e1, Finite m2 e2 => finite_leb m1 e1 m2 e2
  end.


Definition zero : number := Finite 0 0.

Definition negate (x : number) : number :=
  match x with
  | NaN => NaN
  | Infinity s => Infinity (negb s)
  | Finite m e => Finite (- m) e
  end.

(** The same value with an odd mantissa. *)
Definition canonical (mant exp : Z) : number :=
  if mant =? 0 then Finite 0 0
  else
    let t := Z.log2 (Z.land mant (- mant)) in
    Finite (mant / 2 ^ t) (exp + t).

(** The integer nearest to [a / b], the even one on a tie ([0 <= a],
    [0 < b]). *)
Definition round_half_even (a b : Z) : Z :=
  let q := a / b in
  let r := a mod b in
  if 2 * r <? b then q
  else if b <? 2 * r then q + 1
  else if Z.even q then q else q + 1.

(** The binary64 value nearest to [a / b] ([0 <= a], [0 < b]): 53 bits of
    mantissa, fewer below [2^-1022], infinity from [2^1024] on. *)
Definition nearest_binary64 (a b : Z) : number :=
  if a <=? 0 then Finite 0 0
  else
    let floor_at (e : Z) :=
      if 0 <=? e then a / (b * 2 ^ e) else (a * 2 ^ (- e)) / b in
    let e0 := Z.log2 a - Z.log2 b - 52 in
    let e1 := if floor_at e0 <? 2 ^ 52 then e0 - 1 else e0 in
    let e := Z.max e1 (-1074) in
    let m :=
      if 0 <=? e then round_half_even a (b * 2 ^ e)
      else round_half_even (a * 2 ^ (- e)) b in
    if (971 <? e) || ((e =? 971) && (m =? 2 ^ 53)) then Infinity false
    else canonical m e.

(** The number nearest to a fraction of either sign. *)
Definition of_fraction (a b : Z) : number :=
  if a <? 0 then negate (nearest_binary64 (- a) b) else nearest_binary64 a b.

(** The number an integer literal, and a decimal literal [mant * 10^-scale],
    denote. *)
Definition of_Z (z : Z) : number := of_fraction z 1.

Definition of_decimal (mant : Z) (scale : nat) : number :=
  of_fraction mant (pow10 scale).

(** ToBoolean on a number: [0] and [NaN] are falsy. *)
Definition number_truthy (x : number) : bool :=
  match x with
  | NaN => false
  | Infinity _ => true
  | Finite m _ => negb (m =? 0)
  end.

(** *** Decimal digits *)

Definition digit_char (d : N) : ascii := ascii_of_N (48 + d).

Definition is_digit (c : ascii) : bool :=
  ((48 <=? N_of_ascii c) && (N_of_ascii c <=? 57))%N.

Definition digit_of (c : ascii) : N := (N_of_ascii c - 48)%N.

(** The digits of [n], most significant first, in front of [acc]. *)
Fixpoint print_digits (fuel : nat) (n : N) (acc : string) : string :=
  let acc' := String (digit_char (n mod 10)) acc in
  match fuel with
  | O => acc'
  | S fuel' => if (n / 10 =? 0)%N then acc' else print_digits fuel' (n / 10) acc'
  end.

Definition digits (n : N) : string :=
  print_digits (N.to_nat (N.log2 n)) n "".

(** Exactly [width] digits of [r], most significant first. *)
Fixpoint fixed_digits (width : nat) (r : N) : string :=
  match width with
  | O => ""
  | S w =>
      String (digit_char ((r / 10 ^ N.of_nat w) mod 10)) (fixed_digits w r)
  end.

(** The value of a string of digits read after [acc]. *)
Fixpoint digits_value (acc : N) (s : string) : N :=
  match s with
  | "" => acc
  | String c s' => digits_value (10 * acc + digit_of c)%N s'
  end.

(** The longest prefix of digits, and what follows it. *)
Fixpoint span_digits (s : string) : string * string :=
  match s with
  | "" => ("", "")
  | String c s' =>
      if is_digit c
      then let (d, r) := span_digits s' in (String c d, r)
      else ("", s)
  end.

Fixpoint zeros (n : nat) : string :=
  match n with
  | O => ""
  | S n' => String "0" (zeros n')
  end.

(** Drops the zeros that end a string of digits. *)
Fixpoint strip_trailing_zeros (s : string) : string :=
  match s with
  | "" => ""
  | String c s' =>
      let r := strip_trailing_zeros s' in
      if (Ascii.eqb c "0" && String.eqb r "")%bool then "" else String c r
  end.

(** *** Number::toString (radix 10)

    The digits are the shortest decimal [s * 10^p] that reads back as the
    number, the nearest to it among those of that length.  With [s] without
    its trailing zeros, [k] its length and [n] the position of the decimal
    point ([value = 0.s * 10^n]), the text follows the four layouts of the
    language definition. *)

(** The decimal [s * 10^p] as a number. *)
Definition decimal_value (s p : Z) : number :=
  if 0 <=? p then nearest_binary64 (s * 10 ^ p) 1
  else nearest_binary64 s (10 ^ (- p)).

(** [a / b < 10^g]. *)
Definition below_pow10 (a b g : Z) : bool :=
  if 0 <=? g then a <? b * 10 ^ g else a * 10 ^ (- g) <? b.

(** The least [n] with [a / b < 10^n], looked for around the guess [g]. *)
Fixpoint decimal_position (fuel : nat) (a b g : Z) : Z :=
  match fuel with
  | O => g
  | S fuel' =>
      if below_pow10 a b g then
        if below_pow10 a b (g - 1) then decimal_position fuel' a b (g - 1)
        else g
      else decimal_position fuel' a b (g + 1)
  end.

(** The [k]-digit decimals just below and just above [a / b], the nearer
    one first (the even one on a tie), each with its exponent. *)
Definition decimal_neighbours (a b n : Z) (k : nat) : list (Z * Z) :=
  let p := n - Z.of_nat k in
  let num := if 0 <=? p then a else a * 10 ^ (- p) in
  let den := if 0 <=? p then b * 10 ^ p else b in
  let lo := num / den in
  let r := num mod den in
  if r =? 0 then [(lo, p)]
  else if 2 * r <? den then [(lo, p); (lo + 1, p)]
  else if den <? 2 * r then [(lo + 1, p); (lo, p)]
  else if Z.even lo then [(lo, p); (lo + 1, p)] else [(lo + 1, p); (lo, p)].

(** The first decimal of at most [max] digits that reads back as [target],
    trying [k], [k + 1], ... digits. *)
Fixpoint shortest_decimal (fuel : nat) (k : nat) (a b n : Z)
    (target : number) : Z * Z :=
  let candidates := decimal_neighbours a b n k in
  let reads_back (c : Z * Z) :=
    match decimal_value (fst c) (snd c), target with
    | Finite m1 e1, Finite m2 e2 => (m1 =? m2) && (e1 =? e2)
    | _, _ => false
    end in
  match find reads_back candidates, fuel with
  | Some c, _ => c
  | None, S fuel' => shortest_decimal fuel' (S k) a b n target
  | None, O => hd (0, 0) candidates
  end.

Definition exponent_string (e : Z) : string :=
  (if e <? 0 then "-" else "+") ++ digits (Z.to_N (Z.abs e)).

(** The layouts, for the digits [all] of a decimal whose point is at [n]. *)
Definition layout (all : string) (n : Z) : string :=
  let s := strip_trailing_zeros all in
  let k := String.length s in
  if (Z.of_nat k <=? n) && (n <=? 21) then
    s ++ zeros (Z.to_nat (n - Z.of_nat k))
  else if (0 <? n) && (n <=? 21) then
    substring 0 (Z.to_nat n) s ++ "." ++
    substring (Z.to_nat n) (k - Z.to_nat n) s
  else if (-6 <? n) && (n <=? 0) then
    "0." ++ zeros (Z.to_nat (- n)) ++ s
  else if (k =? 1)%nat then
    s ++ "e" ++ exponent_string (n - 1)
  else
    substring 0 1 s ++ "." ++ substring 1 (k - 1) s ++
    "e" ++ exponent_string (n - 1).

Definition finite_toString (mant exp : Z) : string :=
  let a := numerator (Z.abs mant) exp in
  let b := denominator exp in
  let guess := ((Z.log2 a - Z.log2 b) * 30103) / 100000 in
  let n := decimal_position 4 a b guess in
  let (s, p) := shortest_decimal 16 1 a b n (canonical (Z.abs mant) exp) in
  let all := digits (Z.to_N s) in
  (if mant <? 0 then "-" else "")
  ++ layout all (p + Z.of_nat (String.length all)).

Definition Number_toString (x : number) : string :=
  match x with
  | NaN => "NaN"
  | Infinity false => "Infinity"
  | Infinity true => "-Infinity"
  | Finite mant exp =>
      if mant =? 0 then "0" else finite_toString mant exp
  end.

(** *** Number.prototype.toFixed

    For a finite [x] below [10^21] in magnitude: [n] is the integer nearest
    to the exact [|x| * 10^f], the larger one on a tie, printed with [f]
    digits after the point.  Anything else is printed by
    [Number_toString]. *)
Definition round_scaled (f : nat) (mant exp : Z) : Z :=
  let a := numerator (Z.abs mant) exp in
  let b := denominator exp in
  (2 * a * pow10 f + b) / (2 * b).

Definition below_1e21 (mant exp : Z) : bool :=
  numerator (Z.abs mant) exp <? pow10 21 * denominator exp.

Definition toFixed (f : nat) (x : number) : string :=
  match x with
  | Finite mant exp =>
      if below_1e21 mant exp then
        let n := Z.to_N (round_scaled f mant exp) in
        let whole := digits (n / 10 ^ N.of_nat f) in
        let body :=
          match f with
          | O => whole
          | S _ => whole ++ "." ++ fixed_digits f n
          end in
        (if mant <? 0 then "-" else "") ++ body
      else Number_toString x
  | _ => Number_toString x
  end.

(** *** parseFloat

    Leading white space is skipped, then the longest prefix that reads as a
    decimal literal is taken: a sign, then [Infinity], or digits with an
    optional fraction and an optional exponent.  No such prefix: NaN.  The
    result is the number nearest to the decimal read. *)
Definition is_space (c : ascii) : bool :=
  let n := N_of_ascii c in
  ((9 <=? n) && (n <=? 13) || (n =? 32))%N.

Fixpoint skip_spaces (s : string) : string :=
  match s with
  | String c s' => if is_space c then skip_spaces s' else s
  | "" => ""
  end.

Definition read_sign (s : string) : bool * string :=
  match s with
  | String "-" s' => (true, s')
  | String "+" s' => (false, s')
  | _ => (false, s)
  end.

(** The exponent part, [0] when there is none that is well formed. *)
Definition read_exponent (s : string) : Z :=
  match s with
  | String c s' =>
      if (Ascii.eqb c "e" || Ascii.eqb c "E")%bool then
        let (neg, s'') := read_sign s' in
        let (ds, _) := span_digits s'' in
        if String.eqb ds "" then 0
        else let v := Z.of_N (digits_value 0 ds) in if neg then - v else v
      else 0
  | "" => 0
  end.

Definition parseFloat (input : string) : number :=
  let (neg, s) := read_sign (skip_spaces input) in
  if prefix "Infinity" s then Infinity neg
  else
    let (ip, r1) := span_digits s in
    let (fp, r2) :=
      match r1 with
      | String "." r => span_digits r
      | _ => ("", r1)
      end in
    if (String.eqb ip "" && String.eqb fp "")%bool then NaN
    else
      let mant := Z.of_N (digits_value (digits_value 0 ip) fp) in
      let value :=
        decimal_value mant (read_exponent r2 - Z.of_nat (String.length fp)) in
      if neg then negate value else value.

(** *** Predicates on strings of digits *)



(** *** Values

    The values the encoder can meet: primitives, plain objects (their own
    properties in insertion order, the first binding of a key is the one
    read), and stream objects, of which only the identity matters here
    (whether a stream is still readable is a matter of the host, below).
    Functions, symbols, big integers and the built-in objects [Buffer] and
    [URL] are not among them. *)
#[warnings="-register-all"]
Inductive value : Type :=
| VUndefined
| VNull
| VBool (b : bool)
| VNumber (n : number)
| VString (s : string)
| VReadable (id : nat)
| VObject (fields : list (string * value)).

(** ToBoolean. *)
Definition truthy (v : value) : bool :=
  match v with
  | VUndefined | VNull => false
  | VBool b => b
  | VNumber n => number_truthy n
  | VString s => negb (String.eqb s "")
  | VReadable _ | VObject _ => true
  end.

(** The [typeof] operator. *)
Definition typeof (v : value) : string :=
  match v with
  | VUndefined => "undefined"
  | VNull => "object"
  | VBool _ => "boolean"
  | VNumber _ => "number"
  | VString _ => "string"
  | VReadable _ | VObject _ => "object"
  end.

(** [v instanceof Readable]. *)
Definition instanceof_Readable (v : value) : bool :=
  match v with VReadable _ => true | _ => false end.

(** ToString, as string concatenation applies it to its operands. *)
Definition toString (v : value) : string :=
  match v with
  | VUndefined => "undefined"
  | VNull => "null"
  | VBool true => "true"
  | VBool false => "false"
  | VNumber n => Number_toString n
  | VString s => s
  | VReadable _ | VObject _ => "[object Object]"
  end.

Fixpoint lookup (key : string) (fields : list (string * value)) : value :=
  match fields with
  | [] => VUndefined
  | (k, v) :: rest => if String.eqb k key then v else lookup key rest
  end.

(** *** Exceptions

    The messages of the TypeErrors the engine raises follow V8's wording;
    no statement below depends on them. *)

Inductive error_class : Type := ErrorClass | TypeErrorClass.

Record JsError : Type := mkError { err_class : error_class; message : string }.

(** [new Error(msg)]. *)
Definition Error (msg : string) : JsError := mkError ErrorClass msg.
Definition TypeError (msg : string) : JsError := mkError TypeErrorClass msg.

Inductive completion (A : Type) : Type :=
| Normal (a : A)
| Throw (e : JsError).
Arguments Normal {A} a.
Arguments Throw {A} e.

(** Reading a property: a TypeError on [undefined] and [null], [undefined]
    for a property a value does not have. *)
Definition get (v : value) (key : string) : completion value :=
  match v with
  | VUndefined | VNull =>
      Throw (TypeError ("Cannot read properties of " ++ toString v ++
                        " (reading '" ++ key ++ "')"))
  | VObject fields => Normal (lookup key fields)
  | _ => Normal VUndefined
  end.

(** A method call [v.toFixed(f)]: only numbers have the method. *)
Definition call_toFixed (v : value) (f : nat) : completion string :=
  match v with
  | VNumber n => Normal (toFixed f n)
  | VUndefined | VNull =>
      Throw (TypeError ("Cannot read properties of " ++ toString v ++
                        " (reading 'toFixed')"))
  | _ => Throw (TypeError "toFixed is not a function")
  end.

End Js.

(* ================================================================== *)
(** ** The run-time boundary: promise, console, fs, path, ffmpeg, bar *)
(* ================================================================== *)

Module Node.
Import Js.

(** A write stream returned by [fs.createWriteStream]: the path it was
    opened on and its rank among the streams opened so far. *)
Record WriteStream : Type := mkStream { ws_id : nat; ws_path : string }.

(** The object [{ path, stream }] the promise resolves with. *)
Record EncodeResult : Type := mkResult { path : value; stream : WriteStream }.

(** The state of the promise, and the calls made to its two callbacks. *)
Inductive settlement : Type :=
| Pending
| Fulfilled (r : EncodeResult)
| Rejected (e : JsError).

Inductive call : Type :=
| Resolve (r : EncodeResult)
| Reject (e : JsError).

(** Operations on the cli-progress bar. *)
Inductive bar_op : Type :=
| BarStart (total startValue : Z)
| BarUpdate (percent : number)
| BarStop.

(** One element of the array given to [complexFilter]: a filter written as
    a string, or a filter object. *)
Inductive filter_spec : Type :=
| FilterString (s : string)
| FilterObject (filter : string) (options : list (string * string))
               (inputs outputs : string).

(** A fluent-ffmpeg command as the builder calls leave it. *)
Record Input : Type := mkInput { source : value; input_fps : option value }.

Record Command : Type := mkCommand {
  cmd_inputs : list Input;
  cmd_outputOptions : list string;
  cmd_fps : option value;
  cmd_complexFilter : option (list filter_spec * string);
  cmd_output : option WriteStream
}.

(** What a job can change and what can be observed of it. *)
Record World : Type := mkWorld {
  console : list string;        (* lines written by console.log *)
  made_dirs : list string;      (* directories created by mkdirSync *)
  sinks : list WriteStream;     (* streams opened by createWriteStream *)
  promise : settlement;         (* state of the job's promise *)
  calls : list call;            (* calls of resolve and reject, in order *)
  bar : list bar_op;            (* operations on the progress bar *)
  spawned : list Command;       (* commands on which run() was called *)
  uncaught : list JsError       (* exceptions that left an event handler *)
}.

Definition fresh : World := mkWorld [] [] [] Pending [] [] [] [].

(** [path], the file system and the streams as the job finds them.
    [mkdirSync] is called with [{ recursive: true }]: it creates the
    missing parents of the directory first, and may have created some of
    them when it throws. *)
Record Host : Type := mkHost {
  dirname : string -> string;            (* path.dirname on a string *)
  existsSync : string -> bool;           (* fs.existsSync *)
  mkdirSync : string -> option JsError;  (* fs.mkdirSync: the error thrown *)
  mkdir_parents : string -> list string; (* the parents that call creates *)
  readable : nat -> bool                 (* stream.readable of a stream *)
}.

(** *** Computations: a state over [World] that may throw *)

Definition M (A : Type) : Type := World -> completion A * World.

Definition ret {A} (a : A) : M A := fun w => (Normal a, w).

Definition throw {A} (e : JsError) : M A := fun w => (Throw e, w).

Definition bind {A B} (c : M A) (k : A -> M B) : M B :=
  fun w =>
    match c w with
    | (Normal a, w') => k a w'
    | (Throw e, w') => (Throw e, w')
    end.

Definition lift {A} (c : completion A) : M A := fun w => (c, w).

(** [try { body } catch (e) { handler e }]. *)
Definition try_catch {A} (body : M A) (handler : JsError -> M A) : M A :=
  fun w =>
    match body w with
    | (Normal a, w') => (Normal a, w')
    | (Throw e, w') => handler e w'
    end.

Definition when (b : bool) (c : M unit) : M unit := if b then c else ret tt.

Declare Scope js_scope.
Delimit Scope js_scope with js.
Notation "x <- c ;; k" := (bind c (fun x => k))
  (at level 61, c at next level, right associativity) : js_scope.
Notation "c ;; k" := (bind c (fun _ => k))
  (at level 61, right associativity) : js_scope.

(** [a && b]: [b] is evaluated only when [a] is truthy. *)
Definition js_and (a : value) (b : M value) : M value :=
  if truthy a then b else ret a.

(** *** The promise *)

Definition settle (s : settlement) (w : World) : World :=
  match promise w with
  | Pending =>
      mkWorld (console w) (made_dirs w) (sinks w) s (calls w) (bar w)
              (spawned w) (uncaught w)
  | _ => w
  end.

Definition log_call (c : call) (w : World) : World :=
  mkWorld (console w) (made_dirs w) (sinks w) (promise w) (calls w ++ [c])
          (bar w) (spawned w) (uncaught w).

(** The two callbacks handed to the executor: only the first call of
    either one settles the promise. *)
Definition resolve (r : EncodeResult) : M unit :=
  fun w => (Normal tt, settle (Fulfilled r) (log_call (Resolve r) w)).

Definition reject (e : JsError) : M unit :=
  fun w => (Normal tt, settle (Rejected e) (log_call (Reject e) w)).

(** *** console, fs, path *)

Definition console_log (line : string) : M unit :=
  fun w => (Normal tt,
            mkWorld (console w ++ [line]) (made_dirs w) (sinks w) (promise w)
                    (calls w) (bar w) (spawned w) (uncaught w)).

Section FileSystem.
Variable host : Host.

(** [path.dirname] validates that its argument is a string. *)
Definition path_dirname (p : value) : M string :=
  match p with
  | VString s => ret (dirname host s)
  | _ => throw (TypeError ("The 'path' argument must be of type string. Received "
                           ++ typeof p))
  end.

Definition fs_existsSync (dir : string) : M bool :=
  fun w => (Normal (existsSync host dir || existsb (String.eqb dir) (made_dirs w))%bool, w).

(** The world once the directories [dirs] are created. *)
Definition with_dirs (dirs : list string) (w : World) : World :=
  mkWorld (console w) (made_dirs w ++ dirs) (sinks w) (promise w)
          (calls w) (bar w) (spawned w) (uncaught w).

(** [fs.mkdirSync(dir, { recursive: true })]. *)
Definition fs_mkdirSync (dir : string) : M unit :=
  fun w =>
    match mkdirSync host dir with
    | Some e => (Throw e, with_dirs (mkdir_parents host dir) w)
    | None => (Normal tt, with_dirs (mkdir_parents host dir ++ [dir]) w)
    end.

End FileSystem.

(** Whether a path holds a NUL character. *)
Fixpoint has_nul (s : string) : bool :=
  match s with
  | "" => false
  | String c s' => Ascii.eqb c Ascii.zero || has_nul s'
  end.

(** [fs.createWriteStream] validates its path (a string without NUL
    character), then hands out the stream; opening the file goes on behind
    it. *)
Definition fs_createWriteStream (p : value) : M WriteStream :=
  match p with
  | VString s =>
      if has_nul s then
        throw (TypeError "The argument 'path' must be a string, Uint8Array, or URL without null bytes")
      else
        fun w =>
          let ws := mkStream (List.length (sinks w)) s in
          (Normal ws,
           mkWorld (console w) (made_dirs w) (sinks w ++ [ws]) (promise w)
                   (calls w) (bar w) (spawned w) (uncaught w))
  | _ => throw (TypeError ("The 'path' argument must be of type string. Received "
                           ++ typeof p))
  end.

(** *** fluent-ffmpeg *)

Definition ffmpeg : Command := mkCommand [] [] None None None.

Definition is_stream_input (i : Input) : bool := instanceof_Readable (source i).

(** [command.input(source)]: a string, or a stream whose [readable]
    property is true, and at most one stream per command.  The stream is
    paused, which a plain object cannot be; on another primitive the test
    ['readable' in source] throws. *)
Definition command_input (host : Host) (c : Command) (src : value)
    : completion Command :=
  let add := mkCommand (cmd_inputs c ++ [mkInput src None]) (cmd_outputOptions c)
                       (cmd_fps c) (cmd_complexFilter c) (cmd_output c) in
  match src with
  | VString _ => Normal add
  | VReadable id =>
      if negb (readable host id) then Throw (Error "Invalid input")
      else if existsb is_stream_input (cmd_inputs c)
      then Throw (Error "Only one input stream is supported")
      else Normal add
  | VObject fields =>
      if negb (truthy (lookup "readable" fields)) then
        Throw (Error "Invalid input")
      else if existsb is_stream_input (cmd_inputs c)
      then Throw (Error "Only one input stream is supported")
      else Throw (TypeError "source.pause is not a function")
  | _ => Throw (TypeError "Cannot use 'in' operator to search for 'readable'")
  end.

(** [command.inputFPS(fps)] sets the rate of the input added last. *)
Fixpoint set_last_fps (fps : value) (l : list Input) : list Input :=
  match l with
  | [] => []
  | [i] => [mkInput (source i) (Some fps)]
  | i :: rest => i :: set_last_fps fps rest
  end.

Definition command_inputFPS (c : Command) (fps : value) : completion Command :=
  match cmd_inputs c with
  | [] => Throw (Error "No input specified")
  | l => Normal (mkCommand (set_last_fps fps l) (cmd_outputOptions c) (cmd_fps c)
                           (cmd_complexFilter c) (cmd_output c))
  end.

Definition command_outputOptions (c : Command) (opts : list string) : Command :=
  mkCommand (cmd_inputs c) (cmd_outputOptions c ++ opts) (cmd_fps c)
            (cmd_complexFilter c) (cmd_output c).

Definition command_fps (c : Command) (fps : value) : Command :=
  mkCommand (cmd_inputs c) (cmd_outputOptions c) (Some fps)
            (cmd_complexFilter c) (cmd_output c).

Definition command_complexFilter (c : Command) (spec : list filter_spec)
    (map : string) : Command :=
  mkCommand (cmd_inputs c) (cmd_outputOptions c) (cmd_fps c)
            (Some (spec, map)) (cmd_output c).

Definition command_output (c : Command) (target : WriteStream) : Command :=
  mkCommand (cmd_inputs c) (cmd_outputOptions c) (cmd_fps c)
            (cmd_complexFilter c) (Some target).

(** [command.run()]: the external process is launched with the command as
    built so far. *)
Definition command_run (c : Command) : M unit :=
  fun w => (Normal tt,
            mkWorld (console w) (made_dirs w) (sinks w) (promise w) (calls w)
                    (bar w) (spawned w ++ [c]) (uncaught w)).

(** *** cli-progress *)

Definition bar_do (op : bar_op) : M unit :=
  fun w => (Normal tt,
            mkWorld (console w) (made_dirs w) (sinks w) (promise w) (calls w)
                    (bar w ++ [op]) (spawned w) (uncaught w)).

Definition note_uncaught (e : JsError) (w : World) : World :=
  mkWorld (console w) (made_dirs w) (sinks w) (promise w) (calls w) (bar w)
          (spawned w) (uncaught w ++ [e]).

End Node.

(* ================================================================== *)
(** ** src/encoder.ts *)
(* ================================================================== *)

Module Encoder.
Import Js Node.
Local Open Scope js_scope.

(** [typeCheck(reject, config)], lines 8-28.  Each failed check calls
    [reject]; none of them leaves the function. *)
Definition typeCheck (reject : JsError -> M unit) (config : value) : M unit :=
  frameStream <- lift (get config "frameStream") ;;
  output <- lift (get config "output") ;;
  backgroundVideo <- lift (get config "backgroundVideo") ;;
  fps <- lift (get config "fps") ;;
  when (negb (instanceof_Readable frameStream))
    (reject (Error ("frameStream should be in type Readable. You provided "
                    ++ typeof frameStream))) ;;
  when (negb (String.eqb (typeof output) "string"))
    (reject (Error ("output should be a string. You provided "
                    ++ typeof output))) ;;
  fps_set <- js_and fps (fps_input <- lift (get fps "input") ;;
                         js_and fps_input (lift (get fps "output"))) ;;
  when (negb (truthy fps_set))
    (reject (Error "fps should be an object with input and output properties")) ;;
  if truthy backgroundVideo then
    inSeconds <- lift (get backgroundVideo "inSeconds") ;;
    bv_set <- js_and inSeconds
                (outSeconds <- lift (get backgroundVideo "outSeconds") ;;
                 js_and outSeconds (lift (get backgroundVideo "videoPath"))) ;;
    when (negb (truthy bv_set))
      (reject (Error "backgroundVideo property is not correctly set"))
  else ret tt.

Section WithHost.
Variable host : Host.

(** [createDir(reject, silent, output)], lines 30-40. *)
Definition createDir (reject : JsError -> M unit) (silent : value)
    (output : value) : M unit :=
  try_catch
    (outDir <- path_dirname host output ;;
     there <- fs_existsSync host outDir ;;
     when (negb there) (fs_mkdirSync host outDir))
    (fun _ =>
       when (negb (truthy silent))
         (console_log "Could not create/access output directory") ;;
       reject (Error "Cannot create/access output directory")).

(** What the event handlers registered by [encoder] close over. *)
Record Job : Type := mkJob {
  job_command : Command;
  job_silent : value;
  job_output : value;
  job_stream : WriteStream
}.

Definition outputOptions : list string :=
  [ "-preset veryfast";
    "-crf 24";
    "-f mp4";
    "-movflags frag_keyframe+empty_moov";
    "-pix_fmt yuv420p" ].

(** The array given to [complexFilter], lines 70-87. *)
Definition overlay_filter (inSeconds outSeconds : value) : list filter_spec :=
  [ FilterString ("[1:v]setpts=PTS+" ++ toString inSeconds ++ "/TB[out]");
    FilterObject "overlay"
      [ ("enable", "between(t," ++ toString inSeconds ++ ","
                   ++ toString outSeconds ++ ")");
        ("x", "0");
        ("y", "0") ]
      "[0:v][out]"
      "tmp" ].

(** The body of the promise executor, lines 44-131, up to and including
    [command.run()].  The four handlers it registers on the command are
    [on_start], [on_end], [on_progress] and [on_error] below; the process
    runs them later, through [handler]. *)
Definition executor (resolve : EncodeResult -> M unit)
    (reject : JsError -> M unit) (config : value) : M Job :=
  frameStream <- lift (get config "frameStream") ;;
  output <- lift (get config "output") ;;
  backgroundVideo <- lift (get config "backgroundVideo") ;;
  fps <- lift (get config "fps") ;;
  silent_field <- lift (get config "silent") ;;
  let silent := match silent_field with
                | VUndefined => VBool true
                | v => v
                end in
  typeCheck reject config ;;
  createDir reject silent output ;;
  outputStream <- fs_createWriteStream output ;;
  let command := ffmpeg in
  command <- (if truthy backgroundVideo then
                videoPath <- lift (get backgroundVideo "videoPath") ;;
                lift (command_input host command videoPath)
              else ret command) ;;
  command <- lift (command_input host command frameStream) ;;
  fps_input <- lift (get fps "input") ;;
  command <- lift (command_inputFPS command fps_input) ;;
  let command := command_outputOptions command outputOptions in
  fps_output <- lift (get fps "output") ;;
  let command := command_fps command fps_output in
  command <- (if truthy backgroundVideo then
                inSeconds <- lift (get backgroundVideo "inSeconds") ;;
                outSeconds <- lift (get backgroundVideo "outSeconds") ;;
                ret (command_complexFilter command
                       (overlay_filter inSeconds outSeconds) "tmp")
              else ret command) ;;
  let command := command_output command outputStream in
  command_run command ;;
  ret (mkJob command silent output outputStream).

(** Signals of the external process. *)
Inductive event : Type :=
| Start (commandLine : string)
| End_
| Progress (progress : value)
| ProcessError (err_message : string).

(** The handler of ["start"], lines 101-104. *)
Definition on_start (job : Job) (commandLine : string) : M unit :=
  when (negb (truthy (job_silent job)))
    (console_log ("Spawned Ffmpeg with command: " ++ commandLine)) ;;
  when (negb (truthy (job_silent job))) (bar_do (BarStart 100 0)).

(** The handler of ["end"], lines 106-115. *)
Definition on_end (resolve : EncodeResult -> M unit) (job : Job) : M unit :=
  when (negb (truthy (job_silent job)))
    (bar_do BarStop ;; console_log "Processing complete...") ;;
  resolve (mkResult (job_output job) (job_stream job)).

(** The percentage of line 119-121: the reported one when it is truthy,
    printed with two decimals and read back; otherwise [0]. *)
Definition percent_of (progress : value) : M number :=
  raw <- lift (get progress "percent") ;;
  if truthy raw then
    text <- lift (call_toFixed raw 2) ;;
    ret (parseFloat text)
  else ret zero.

(** The handler of ["progress"], lines 117-124. *)
Definition on_progress (job : Job) (progress : value) : M unit :=
  when (negb (truthy (job_silent job)))
    (percent <- percent_of progress ;;
     bar_do (BarUpdate percent)).

(** The handler of ["error"], lines 126-129. *)
Definition on_error (reject : JsError -> M unit) (job : Job)
    (err_message : string) : M unit :=
  when (negb (truthy (job_silent job)))
    (console_log ("An error occured while processing, " ++ err_message)) ;;
  reject (Error err_message).

Definition handler (job : Job) (ev : event) : M unit :=
  match ev with
  | Start commandLine => on_start job commandLine
  | End_ => on_end resolve job
  | Progress progress => on_progress job progress
  | ProcessError m => on_error reject job m
  end.

(** [new Promise(executor)]: an exception that leaves the executor rejects
    the promise, if it is still pending.  The job is there when the
    executor reached [run()]. *)
Definition encoder (config : value) : option Job * World :=
  match executor resolve reject config fresh with
  | (Normal job, w) => (Some job, w)
  | (Throw e, w) => (None, settle (Rejected e) w)
  end.

(** One signal of the process reaches its handler. *)
Definition deliver (job : Job) (w : World) (ev : event) : World :=
  match handler job ev w with
  | (Normal _, w') => w'
  | (Throw e, w') => note_uncaught e w'
  end.

Definition deliver_all (job : Job) (w : World) (evs : list event) : World :=
  fold_left (deliver job) evs w.

(** A whole run: the executor, then the signals of the process if it was
    launched. *)
Definition run_job (config : value) (evs : list event) : World :=
  match encoder config with
  | (Some job, w) => deliver_all job w evs
  | (None, w) => w
  end.

End WithHost.

End Encoder.

(* ================================================================== *)
(** ** The checks of the validator and of the path preparer, as data *)
(* ================================================================== *)

Module Checks.
Import Js Node Encoder.

(** The property [key] of [v], [undefined] where reading it would throw. *)
Definition prop (v : value) (key : string) : value :=
  match get v key with
  | Normal x => x
  | Throw _ => VUndefined
  end.

Definition frameStream_error (frameStream : value) : JsError :=
  Error ("frameStream should be in type Readable. You provided "
         ++ typeof frameStream).

Definition output_error (output : value) : JsError :=
  Error ("output should be a string. You provided " ++ typeof output).

Definition fps_error : JsError :=
  Error "fps should be an object with input and output properties".

Definition backgroundVideo_error : JsError :=
  Error "backgroundVideo property is not correctly set".

(** The conditions of lines 18 and 23 as booleans. *)
Definition fps_set (fps : value) : bool :=
  truthy fps && truthy (prop fps "input") && truthy (prop fps "output").

Definition backgroundVideo_set (bv : value) : bool :=
  truthy (prop bv "inSeconds") && truthy (prop bv "outSeconds")
  && truthy (prop bv "videoPath").

(** The errors [typeCheck] hands to [reject], in order. *)
Definition violations (config : value) : list JsError :=
  let frameStream := prop config "frameStream" in
  let output := prop config "output" in
  let backgroundVideo := prop config "backgroundVideo" in
  let fps := prop config "fps" in
  (if instanceof_Readable frameStream then [] else [frameStream_error frameStream])
  ++ (if String.eqb (typeof output) "string" then [] else [output_error output])
  ++ (if fps_set fps then [] else [fps_error])
  ++ (if truthy backgroundVideo && negb (backgroundVideo_set backgroundVideo)
      then [backgroundVideo_error] else []).

(** Calling [reject] on each error in turn. *)
Definition reject_all (es : list JsError) (w : World) : World :=
  fold_left (fun w e => snd (reject e w)) es w.

(** Whether line 33 finds the directory missing, and whether the [try]
    block of [createDir] throws. *)
Definition needs_mkdir (host : Host) (s : string) (w : World) : bool :=
  negb (existsSync host (dirname host s)
        || existsb (String.eqb (dirname host s)) (made_dirs w)).

Definition createDir_fails (host : Host) (output : value) (w : World) : bool :=
  match output with
  | VString s =>
      needs_mkdir host s w
      && match mkdirSync host (dirname host s) with Some _ => true | None => false end
  | _ => true
  end.

(** The world a failed [try] block of [createDir] leaves: the parents that
    a failing [mkdirSync] created are there. *)
Definition after_failed_mkdir (host : Host) (output : value) (w : World)
    : World :=
  match output with
  | VString s => with_dirs (mkdir_parents host (dirname host s)) w
  | _ => w
  end.

(** The calls [typeCheck] makes on a fresh promise. *)
Definition signalled (config : value) : list call :=
  calls (snd (typeCheck reject config fresh)).
End Checks.

(* ================================================================== *)
(** ** Sample hosts, configurations and jobs *)
(* ================================================================== *)

Module Samples.
Import Js Node Encoder.

(** The part of a path before its last slash, if it has one. *)
Fixpoint before_last_slash (s : string) : option string :=
  match s with
  | "" => None
  | String c s' =>
      match before_last_slash s' with
      | Some d => Some (String c d)
      | None => if Ascii.eqb c "/" then Some "" else None
      end
  end.

(** [path.dirname] on paths that do not end with a slash. *)
Definition plain_dirname (s : string) : string :=
  match before_last_slash s with
  | Some "" => "/"
  | Some d => d
  | None => "."
  end.

(** A host on which every directory exists and every stream can be read. *)
Definition host_ready : Host :=
  mkHost plain_dirname (fun _ => true) (fun _ => None) (fun _ => [])
         (fun _ => true).

(** A host on which no directory exists and none can be created, not even
    a parent. *)
Definition host_denied : Host :=
  mkHost plain_dirname (fun _ => false)
         (fun _ => Some (Error "EACCES: permission denied, mkdir"))
         (fun _ => []) (fun _ => true).

Definition num (z : Z) : value := VNumber (of_Z z).

Definition rates (input output : value) : value :=
  VObject [("input", input); ("output", output)].

Definition window (videoPath inSeconds outSeconds : value) : value :=
  VObject [("videoPath", videoPath); ("inSeconds", inSeconds);
           ("outSeconds", outSeconds)].

(** [{ frameStream, output: "out/video.mp4", fps: { input: 30, output: 30 } }] *)
Definition config_plain : value :=
  VObject [("frameStream", VReadable 0); ("output", VString "out/video.mp4");
           ("fps", rates (num 30) (num 30))].

(** The same, verbose. *)
Definition config_verbose : value :=
  VObject [("frameStream", VReadable 0); ("output", VString "out/video.mp4");
           ("fps", rates (num 30) (num 30)); ("silent", VBool false)].

(** The plain configuration with a background video shown from
    [inSeconds] to [outSeconds]. *)
Definition config_overlay (inSeconds outSeconds : Z) : value :=
  VObject [("frameStream", VReadable 0); ("output", VString "out/video.mp4");
           ("fps", rates (num 30) (num 30));
           ("backgroundVideo",
            window (VString "bg.mp4") (num inSeconds) (num outSeconds))].

(** The plain configuration with the given frame rates. *)
Definition config_rates (fps : value) : value :=
  VObject [("frameStream", VReadable 0); ("output", VString "out/video.mp4");
           ("fps", fps)].

(** No frame stream, no output rate, and a zero offset. *)
Definition config_three_faults : value :=
  VObject [("output", VString "out/video.mp4");
           ("fps", VObject [("input", num 30)]);
           ("backgroundVideo", window (VString "bg.mp4") (num 0) (num 5))].

(** A frame stream, but an input rate of 0 and a zero offset. *)
Definition config_two_faults : value :=
  VObject [("frameStream", VReadable 0); ("output", VString "out/video.mp4");
           ("fps", rates (num 0) (num 30));
           ("backgroundVideo", window (VString "bg.mp4") (num 0) (num 5))].

Definition percent (n : number) : value := VObject [("percent", VNumber n)].

(** A verbose job, as its handlers see it. *)
Definition job_verbose : Job :=
  mkJob ffmpeg (VBool false) (VString "out/video.mp4")
        (mkStream 0 "out/video.mp4").

Definition job_quiet : Job :=
  mkJob ffmpeg (VBool true) (VString "out/video.mp4")
        (mkStream 0 "out/video.mp4").

End Samples.

(* ================================================================== *)
(** ** Outcomes of a run, as data *)
(* ================================================================== *)

Module Outcomes.
Import Js Node Encoder.

Definition is_object (v : value) : bool :=
  match v with VObject _ => true | _ => false end.

Definition is_nullish (v : value) : bool :=
  match v with VUndefined | VNull => true | _ => false end.

Definition is_number (v : value) : bool :=
  match v with VNumber _ => true | _ => false end.

Definition is_string (v : value) : bool :=
  match v with VString _ => true | _ => false end.

(** [undefined], [null], booleans, numbers and strings. *)
Definition is_primitive (v : value) : bool :=
  match v with VReadable _ | VObject _ => false | _ => true end.

(** The value of [silent] after the default of line 44. *)
Definition silent_of (fields : list (string * value)) : value :=
  let silent_field := lookup "silent" fields in
  match silent_field with
  | VUndefined => VBool true
  | v => v
  end.

(** The signals whose handler calls [resolve] or [reject]. *)
Definition is_terminal (ev : event) : bool :=
  match ev with
  | End_ | ProcessError _ => true
  | Start _ | Progress _ => false
  end.

(** What the handler of a signal asks the promise to become. *)
Definition settlement_of (job : Job) (ev : event) : settlement :=
  match ev with
  | End_ => Fulfilled (mkResult (job_output job) (job_stream job))
  | ProcessError m => Rejected (Error m)
  | Start _ | Progress _ => Pending
  end.

(** The settlement asked by the first end or error signal of a list. *)
Fixpoint first_outcome (job : Job) (evs : list event) : settlement :=
  match evs with
  | [] => Pending
  | ev :: rest =>
      if is_terminal ev then settlement_of job ev else first_outcome job rest
  end.

(** The world after [fs.createWriteStream(out)], and after [run()]. *)
Definition open_sink (out : string) (w : World) : World :=
  snd (fs_createWriteStream (VString out) w).

Definition launch (c : Command) (w : World) : World :=
  snd (command_run c w).

End Outcomes.

Module MoreSamples.
Import Js Node Encoder Samples.

(** A host on which no directory exists yet and any can be created, the
    missing parent first. *)
Definition host_empty : Host :=
  mkHost plain_dirname (fun _ => false) (fun _ => None)
         (fun d => match before_last_slash d with
                   | Some "" | None => []
                   | Some parent => [parent]
                   end)
         (fun _ => true).

(** A host on which no directory exists yet, and on which [mkdirSync]
    creates the missing parents and then fails on the directory itself. *)
Definition host_half : Host :=
  mkHost plain_dirname (fun _ => false)
         (fun _ => Some (Error "EACCES: permission denied, mkdir"))
         (fun d => match before_last_slash d with
                   | Some "" | None => []
                   | Some parent => [parent]
                   end)
         (fun _ => true).

(** The plain configuration, quiet by an explicit [silent: true]. *)
Definition config_quiet : value :=
  VObject [("frameStream", VReadable 0); ("output", VString "out/video.mp4");
           ("fps", rates (num 30) (num 30)); ("silent", VBool true)].

(** A progress report whose percent is a string. *)
Definition percent_text (s : string) : value := VObject [("percent", VString s)].

End MoreSamples.

(* ================================================================== *)
(** ** Lemmas *)
(* ================================================================== *)

(* ================================================================== *)
(** ** Printing and reading numbers *)
(* ================================================================== *)

Module NumberFacts.
Import Js.

Local Open Scope N_scope.





















End NumberFacts.

Module RoundTrip.
Import Js NumberFacts.












End RoundTrip.

Module ValidatorFacts.
Import Js Node Encoder Checks.
Local Open Scope js_scope.

Lemma get_truthy v key : truthy v = true -> get v key = Normal (prop v key).
Proof. destruct v; simpl; intros H; try discriminate H; reflexivity. Qed.

Lemma get_object fields key : get (VObject fields) key = Normal (lookup key fields).
Proof. reflexivity. Qed.

Lemma fps_chain (fps : value) (w : World) :
  exists v,
    js_and fps (fps_input <- lift (get fps "input") ;;
                js_and fps_input (lift (get fps "output"))) w = (Normal v, w)
    /\ truthy v = fps_set fps.
Proof.
  unfold js_and, fps_set. destruct (truthy fps) eqn:Hfps.
  - unfold bind, lift. rewrite !(get_truthy fps) by assumption.
    destruct (truthy (prop fps "input")) eqn:Hin.
    + eexists; split; [reflexivity|]. reflexivity.
    + eexists; split; [reflexivity|]. now rewrite Hin.
  - eexists; split; [reflexivity|]. now rewrite Hfps.
Qed.

Lemma backgroundVideo_chain (bv : value) (w : World) :
  truthy bv = true ->
  exists v,
    (inSeconds <- lift (get bv "inSeconds") ;;
     js_and inSeconds
       (outSeconds <- lift (get bv "outSeconds") ;;
        js_and outSeconds (lift (get bv "videoPath")))) w = (Normal v, w)
    /\ truthy v = backgroundVideo_set bv.
Proof.
  intros Hbv. unfold js_and, backgroundVideo_set, bind, lift.
  rewrite !(get_truthy bv) by assumption.
  destruct (truthy (prop bv "inSeconds")) eqn:Hin.
  - destruct (truthy (prop bv "outSeconds")) eqn:Hout.
    + eexists; split; reflexivity.
    + eexists; split; [reflexivity|]. now rewrite Hout.
  - eexists; split; [reflexivity|]. now rewrite Hin.
Qed.

Lemma bind_lift_normal {A B} (a : A) (k : A -> M B) :
  bind (lift (Normal a)) k = k a.
Proof. reflexivity. Qed.

Lemma bind_unless_reject (b : bool) (e : JsError) (k : M unit) (w : World) :
  (when (negb b) (reject e) ;; k) w = k (reject_all (if b then [] else [e]) w).
Proof. destruct b; reflexivity. Qed.

Lemma unless_reject (b : bool) (e : JsError) (w : World) :
  when (negb b) (reject e) w = (Normal tt, reject_all (if b then [] else [e]) w).
Proof. destruct b; reflexivity. Qed.

Lemma reject_all_app (es1 es2 : list JsError) (w : World) :
  reject_all (es1 ++ es2) w = reject_all es2 (reject_all es1 w).
Proof. apply fold_left_app. Qed.

(** [typeCheck] on an object: it returns normally after calling [reject]
    once per failed check. *)
Lemma typeCheck_object (fields : list (string * value)) (w : World) :
  typeCheck reject (VObject fields) w
  = (Normal tt, reject_all (violations (VObject fields)) w).
Proof.
  unfold typeCheck, violations, prop. rewrite !get_object.
  set (frameStream := lookup "frameStream" fields).
  set (output := lookup "output" fields).
  set (bv := lookup "backgroundVideo" fields).
  set (fps := lookup "fps" fields).
  rewrite !bind_lift_normal, !reject_all_app.
  rewrite !bind_unless_reject.
  fold (frameStream_error frameStream). fold (output_error output).
  fold fps_error. fold backgroundVideo_error.
  set (w2 := reject_all (if (typeof output =? "string")%string then [] else _) _).
  unfold bind at 1.
  destruct (fps_chain fps w2) as (v & -> & ->).
  rewrite bind_unless_reject.
  set (w3 := reject_all (if fps_set fps then [] else _) w2).
  destruct (truthy bv) eqn:Hbv; cbn [andb]; [|reflexivity].
  destruct (backgroundVideo_chain bv w3 Hbv) as (u & Hu & Htu).
  unfold bind at 1 2. unfold bind at 1 in Hu.
  destruct (lift (get bv "inSeconds") w3) as [[x|e] w4]; [|discriminate Hu].
  rewrite Hu, unless_reject, Htu.
  now destruct (backgroundVideo_set bv).
Qed.

Lemma reject_all_calls (es : list JsError) : forall w,
  calls (reject_all es w) = (calls w ++ map Reject es)%list.
Proof.
  induction es as [|e es IH]; intros w; simpl.
  - now rewrite app_nil_r.
  - unfold reject_all in IH. rewrite IH. unfold settle, log_call.
    destruct (promise w); simpl; now rewrite <- app_assoc.
Qed.

Lemma reject_all_promise (es : list JsError) : forall w,
  promise (reject_all es w) =
  match promise w, es with
  | Pending, e :: _ => Rejected e
  | s, _ => s
  end.
Proof.
  induction es as [|e es IH]; intros w; simpl.
  - now destruct (promise w).
  - unfold reject_all in IH. rewrite IH. unfold settle, log_call; simpl.
    destruct (promise w); simpl; now destruct es.
Qed.

Lemma reject_all_frame (es : list JsError) : forall w,
  console (reject_all es w) = console w
  /\ made_dirs (reject_all es w) = made_dirs w
  /\ sinks (reject_all es w) = sinks w
  /\ bar (reject_all es w) = bar w
  /\ spawned (reject_all es w) = spawned w
  /\ uncaught (reject_all es w) = uncaught w.
Proof.
  induction es as [|e es IH]; intros w.
  - repeat split.
  - change (reject_all (e :: es) w) with (reject_all es (snd (reject e w))).
    destruct (IH (snd (reject e w))) as (-> & -> & -> & -> & -> & ->).
    unfold reject, settle, log_call; simpl. destruct (promise w); repeat split.
Qed.

Lemma signalled_object (fields : list (string * value)) :
  signalled (VObject fields) = map Reject (violations (VObject fields)).
Proof.
  unfold signalled. rewrite typeCheck_object. simpl snd.
  now rewrite reject_all_calls.
Qed.
End ValidatorFacts.

Module RunFacts.
Import Js Node Encoder Checks ValidatorFacts.
Local Open Scope js_scope.

Section OnAnyHost.
Variable host : Host.

Lemma createDir_ok (silent output : value) (s : string) (w : World) :
  output = VString s ->
  needs_mkdir host s w = false \/ mkdirSync host (dirname host s) = None ->
  exists w',
    createDir host reject silent output w = (Normal tt, w')
    /\ console w' = console w /\ sinks w' = sinks w /\ promise w' = promise w
    /\ calls w' = calls w /\ bar w' = bar w /\ spawned w' = spawned w
    /\ uncaught w' = uncaught w.
Proof.
  intros -> H. unfold createDir, try_catch, bind, path_dirname, ret, fs_existsSync.
  unfold needs_mkdir in H. 
  destruct (existsSync host (dirname host s)
            || existsb (String.eqb (dirname host s)) (made_dirs w))%bool eqn:Hex;
    cbn [negb when ret].
  - exists w. repeat split.
  - destruct H as [H|H]; [discriminate H|].
    unfold fs_mkdirSync. rewrite H. eexists; split; [reflexivity|].
    repeat split.
Qed.

Lemma createDir_failure (silent output : value) (w : World) :
  createDir_fails host output w = true ->
  createDir host reject silent output w
  = (Normal tt,
     snd (reject (Error "Cannot create/access output directory")
            (if truthy silent then after_failed_mkdir host output w
             else snd (console_log "Could not create/access output directory"
                         (after_failed_mkdir host output w))))).
Proof.
  unfold createDir_fails, createDir, try_catch, bind, path_dirname.
  destruct output; intros H; try (destruct (truthy silent); reflexivity).
  unfold needs_mkdir in H. unfold ret, fs_existsSync.
  destruct (existsSync host (dirname host s)
            || existsb (String.eqb (dirname host s)) (made_dirs w))%bool;
    [discriminate H|].
  cbn [negb when]. unfold fs_mkdirSync.
  destruct (mkdirSync host (dirname host s)); [|discriminate H].
  destruct (truthy silent); reflexivity.
Qed.

(** A failed [try] block leaves all but the directories as they were. *)
Lemma after_failed_mkdir_frame (output : value) (w : World) :
  console (after_failed_mkdir host output w) = console w
  /\ sinks (after_failed_mkdir host output w) = sinks w
  /\ promise (after_failed_mkdir host output w) = promise w
  /\ calls (after_failed_mkdir host output w) = calls w
  /\ bar (after_failed_mkdir host output w) = bar w
  /\ spawned (after_failed_mkdir host output w) = spawned w
  /\ uncaught (after_failed_mkdir host output w) = uncaught w.
Proof. destruct output; repeat split. Qed.

(** What a failing [createDir] changes. *)
Lemma createDir_failure_fields (silent output : value) (w : World) :
  createDir_fails host output w = true ->
  exists w',
    createDir host reject silent output w = (Normal tt, w')
    /\ calls w'
       = (calls w ++ [Reject (Error "Cannot create/access output directory")])%list
    /\ console w'
       = (console w ++ (if truthy silent then []
                       else ["Could not create/access output directory"]))%list
    /\ promise w'
       = match promise w with
         | Pending => Rejected (Error "Cannot create/access output directory")
         | settled => settled
         end
    /\ made_dirs w' = made_dirs (after_failed_mkdir host output w)
    /\ sinks w' = sinks w /\ spawned w' = spawned w /\ bar w' = bar w
    /\ uncaught w' = uncaught w.
Proof.
  intros Hf. rewrite (createDir_failure silent output w Hf).
  eexists; split; [reflexivity|].
  destruct (after_failed_mkdir_frame output w)
    as (Hc & Hs & Hp & Hcl & Hb & Hsp & Hu).
  unfold reject, settle, log_call, console_log.
  destruct (truthy silent); cbn; rewrite Hp; destruct (promise w); cbn;
    rewrite ?Hc, ?Hs, ?Hcl, ?Hb, ?Hsp, ?Hu, ?app_nil_r; repeat split.
Qed.

Lemma createDir_cases (output : value) (w : World) :
  createDir_fails host output w = true
  \/ exists s, output = VString s
       /\ (needs_mkdir host s w = false \/ mkdirSync host (dirname host s) = None).
Proof.
  unfold createDir_fails. destruct output; auto.
  destruct (needs_mkdir host s w) eqn:Hn; [|right; eauto].
  destruct (mkdirSync host (dirname host s)) eqn:Hm; [left; reflexivity|right; eauto].
Qed.

(** [createDir] never throws, opens no stream and launches nothing. *)
Lemma createDir_normal (silent output : value) (w : World) :
  exists w',
    createDir host reject silent output w = (Normal tt, w')
    /\ sinks w' = sinks w /\ spawned w' = spawned w /\ bar w' = bar w
    /\ uncaught w' = uncaught w
    /\ (promise w <> Pending -> promise w' = promise w).
Proof.
  destruct (createDir_cases output w) as [Hf|(s & Hs & Hok)].
  - destruct (createDir_failure_fields silent output w Hf)
      as (w' & -> & _ & _ & Hp & _ & ? & ? & ? & ?).
    exists w'. repeat split; auto.
    intros Hnp. rewrite Hp. destruct (promise w); congruence.
  - destruct (createDir_ok silent output s w Hs Hok)
      as (w' & -> & _ & ? & ? & ? & ? & ? & ?).
    exists w'. repeat split; auto.
Qed.

Lemma bind_typeCheck {A} (fields : list (string * value)) (k : M A) (w : World) :
  (typeCheck reject (VObject fields) ;; k) w
  = k (reject_all (violations (VObject fields)) w).
Proof. unfold bind at 1. now rewrite typeCheck_object. Qed.

Lemma createDir_fails_made_dirs (output : value) (w w' : World) :
  made_dirs w = made_dirs w' ->
  createDir_fails host output w = createDir_fails host output w'.
Proof.
  intros H. unfold createDir_fails, needs_mkdir. now rewrite H.
Qed.

(** Whatever the validator and the path preparer reported, a job with a
    frame stream, an output path, frame rates and no background video
    opens its output stream and launches the process. *)
Lemma launch_regardless_of_checks (fields fpsf : list (string * value))
    (id : nat) (out : string) :
  lookup "frameStream" fields = VReadable id ->
  readable host id = true ->
  lookup "output" fields = VString out ->
  has_nul out = false ->
  lookup "fps" fields = VObject fpsf ->
  truthy (lookup "backgroundVideo" fields) = false ->
  exists job w,
    encoder host (VObject fields) = (Some job, w)
    /\ calls w
       = map Reject
           (violations (VObject fields)
            ++ (if createDir_fails host (VString out) fresh
                then [Error "Cannot create/access output directory"]
                else []))
    /\ sinks w = [mkStream 0 out]
    /\ spawned w = [job_command job].
Proof.
  intros Hfs Hrd Hout Hnul Hfps Hbv.
  unfold encoder, executor. rewrite !get_object, !bind_lift_normal.
  cbv zeta. rewrite bind_typeCheck. rewrite Hfs, Hout, Hfps, Hbv.
  set (w1 := reject_all _ fresh).
  destruct (reject_all_frame (violations (VObject fields)) fresh)
    as (_ & Hmd & Hs1 & _ & Hsp1 & _).
  pose proof (reject_all_calls (violations (VObject fields)) fresh) as Hc1.
  fold w1 in Hmd, Hs1, Hsp1, Hc1. cbn [fresh calls app] in Hc1.
  match goal with
  | |- context [createDir host reject ?s _] => set (silent := s)
  end.
  rewrite <- (createDir_fails_made_dirs (VString out) w1 fresh Hmd).
  assert (Hcd : exists w2,
    createDir host reject silent (VString out) w1 = (Normal tt, w2)
    /\ sinks w2 = [] /\ spawned w2 = []
    /\ calls w2
       = map Reject
           (violations (VObject fields)
            ++ (if createDir_fails host (VString out) w1
                then [Error "Cannot create/access output directory"]
                else []))).
  { destruct (createDir_cases (VString out) w1) as [Hf|(s0 & Hs0 & Hok)].
    - destruct (createDir_failure_fields silent (VString out) w1 Hf)
        as (w2 & Hrun & Hc2 & _ & _ & _ & Hs2 & Hsp2 & _).
      exists w2. split; [assumption|].
      rewrite Hs2, Hsp2, Hc2, Hs1, Hsp1, Hc1, Hf, map_app. repeat split.
    - destruct (createDir_ok silent (VString out) s0 w1 Hs0 Hok)
        as (w2 & Hrun & _ & Hs2 & _ & Hc2 & _ & Hsp2 & _).
      exists w2. split; [assumption|].
      rewrite Hs2, Hsp2, Hc2, Hs1, Hsp1, Hc1. repeat split.
      injection Hs0 as <-.
      assert (Hnf : createDir_fails host (VString out) w1 = false).
      { unfold createDir_fails. destruct Hok as [-> | ->]; [reflexivity|].
        apply andb_false_r. }
      rewrite Hnf. now rewrite app_nil_r. }
  destruct Hcd as (w2 & Hrun & Hs2 & Hsp2 & Hc2).
  unfold bind at 1. rewrite Hrun.
  unfold bind, lift, ret, fs_createWriteStream, command_run, command_input.
  rewrite Hnul, Hrd. cbn.
  do 2 eexists. split; [reflexivity|]. cbn.
  rewrite Hs2, Hsp2, Hc2. repeat split.
Qed.

(** What a launched job closes over: the configured output, and the one
    stream that was opened on it. *)
Lemma encoder_job (config : value) (job : Job) (w : World) :
  encoder host config = (Some job, w) ->
  exists fields out,
    config = VObject fields
    /\ lookup "output" fields = VString out
    /\ job_output job = VString out
    /\ job_stream job = mkStream 0 out
    /\ sinks w = [job_stream job]
    /\ spawned w = [job_command job]
    /\ cmd_output (job_command job) = Some (job_stream job).
Proof.
  intros H. destruct config as [| | b | n | s | id | fields].
  1-6: cbv in H; discriminate H.
  exists fields. unfold encoder, executor in H.
  rewrite !get_object, !bind_lift_normal in H. cbv zeta in H.
  rewrite bind_typeCheck in H.
  set (w1 := reject_all _ fresh) in H.
  match type of H with
  | context [createDir host reject ?s _] => set (silent := s) in H
  end.
  destruct (createDir_normal silent (lookup "output" fields) w1)
    as (w2 & Hcd & Hs & Hsp & _).
  unfold bind at 1 in H. rewrite Hcd in H.
  assert (Hs0 : sinks w2 = []).
  { rewrite Hs. subst w1.
    now destruct (reject_all_frame (violations (VObject fields)) fresh)
      as (_ & _ & -> & _). }
  assert (Hsp0 : spawned w2 = []).
  { rewrite Hsp. subst w1.
    now destruct (reject_all_frame (violations (VObject fields)) fresh)
      as (_ & _ & _ & _ & -> & _). }
  destruct (lookup "output" fields) as [| | b | n | out | id | o].
  1-4, 6-7: cbv in H; discriminate H.
  exists out. split; [reflexivity|]. split; [reflexivity|].
  unfold bind, lift, ret, fs_createWriteStream, command_run in H.
  destruct (has_nul out);
    [unfold throw in H; cbv beta iota in H; discriminate H|].
  cbv beta iota in H. rewrite Hs0 in H. cbn [List.length app] in H.
  destruct (truthy (lookup "backgroundVideo" fields)); cbv beta iota in H;
    repeat match type of H with
    | context [match ?x with _ => _ end] =>
        lazymatch x with
        | context [match _ with _ => _ end] => fail
        | _ => destruct x eqn:?; try discriminate H
        end
    end;
    injection H as <- <-; cbn; rewrite Hsp0; repeat split.
Qed.

End OnAnyHost.
End RunFacts.

Module HandlerFacts.
Import Js Node Encoder Checks.
Local Open Scope js_scope.

(** Computing a percentage leaves the world as it is. *)
Lemma percent_of_world (progress : value) (w : World) :
  snd (percent_of progress w) = w.
Proof.
  unfold percent_of, bind, lift, ret.
  destruct (get progress "percent") as [raw|e]; [|reflexivity].
  destruct (truthy raw); [|reflexivity].
  destruct (call_toFixed raw 2); reflexivity.
Qed.



(** In verbose mode the progress handler hands the percentage to the bar. *)
Lemma deliver_progress (job : Job) (w : World) (progress : value) (p : number) :
  truthy (job_silent job) = false ->
  percent_of progress w = (Normal p, w) ->
  deliver job w (Progress progress)
  = mkWorld (console w) (made_dirs w) (sinks w) (promise w) (calls w)
            (bar w ++ [BarUpdate p]) (spawned w) (uncaught w).
Proof.
  intros Hs Hp. unfold deliver, handler, on_progress. rewrite Hs. cbn [negb when].
  unfold bind. now rewrite Hp.
Qed.

(** Once the promise is settled no signal changes it. *)
Lemma handler_settled (job : Job) (ev : event) (w : World) :
  promise w <> Pending -> promise (snd (handler job ev w)) = promise w.
Proof.
  intros Hw. destruct ev as [line | | progress | m]; cbn [handler].
  - unfold on_start. destruct (truthy (job_silent job)); reflexivity.
  - unfold on_end, resolve, settle, log_call, bind.
    destruct (truthy (job_silent job)); simpl;
      destruct (promise w) eqn:E; simpl; congruence.
  - unfold on_progress. destruct (truthy (job_silent job)); cbn [negb when ret]; [reflexivity|].
    unfold bind. pose proof (percent_of_world progress w) as Hp.
    destruct (percent_of progress w) as [[p|e] w']; simpl in Hp; subst w'; reflexivity.
  - unfold on_error, reject, settle, log_call, bind.
    destruct (truthy (job_silent job)); simpl;
      destruct (promise w) eqn:E; simpl; congruence.
Qed.

Lemma deliver_settled (job : Job) (ev : event) (w : World) :
  promise w <> Pending -> promise (deliver job w ev) = promise w.
Proof.
  intros Hw. unfold deliver. pose proof (handler_settled job ev w Hw) as H.
  destruct (handler job ev w) as [[u|e] w']; simpl in H; [assumption|].
  unfold note_uncaught; simpl. assumption.
Qed.

Lemma deliver_all_settled (job : Job) (evs : list event) : forall w,
  promise w <> Pending -> promise (deliver_all job w evs) = promise w.
Proof.
  induction evs as [|ev evs IH]; intros w Hw; [reflexivity|].
  cbn [deliver_all fold_left]. fold (deliver_all job (deliver job w ev) evs).
  rewrite IH by (rewrite deliver_settled; assumption).
  now apply deliver_settled.
Qed.

Lemma deliver_end (job : Job) (w : World) :
  promise w = Pending ->
  promise (deliver job w End_)
  = Fulfilled (mkResult (job_output job) (job_stream job)).
Proof.
  intros Hw. unfold deliver, handler, on_end, resolve, settle, log_call, bind.
  destruct (truthy (job_silent job)); simpl; now rewrite Hw.
Qed.

Lemma deliver_error_calls (job : Job) (w : World) (m : string) :
  calls (deliver job w (ProcessError m)) = (calls w ++ [Reject (Error m)])%list.
Proof.
  unfold deliver, handler, on_error, reject, settle, log_call, bind.
  destruct (truthy (job_silent job)); simpl; destruct (promise w); reflexivity.
Qed.

Lemma deliver_error_promise (job : Job) (w : World) (m : string) :
  promise w = Pending ->
  promise (deliver job w (ProcessError m)) = Rejected (Error m).
Proof.
  intros Hw. unfold deliver, handler, on_error, reject, settle, log_call, bind.
  destruct (truthy (job_silent job)); simpl; now rewrite Hw.
Qed.

Lemma deliver_error_console (job : Job) (w : World) (m : string) :
  console (deliver job w (ProcessError m))
  = if truthy (job_silent job) then console w
    else (console w ++ [("An error occured while processing, " ++ m)%string])%list.
Proof.
  unfold deliver, handler, on_error, reject, settle, log_call, bind.
  destruct (truthy (job_silent job)); simpl; destruct (promise w); reflexivity.
Qed.

End HandlerFacts.
Module OutcomeFacts.
Import Js Node Encoder Checks ValidatorFacts RunFacts HandlerFacts.
Local Open Scope js_scope.

Lemma settle_settled (s : settlement) (w : World) :
  promise w <> Pending -> promise (settle s w) = promise w.
Proof. unfold settle. destruct (promise w) eqn:E; simpl; congruence. Qed.

(** The first failed check decides the outcome of the job, whatever the
    executor goes on to do. *)
Lemma encoder_rejected (host : Host) (fields : list (string * value))
    (e : JsError) (es : list JsError) :
  violations (VObject fields) = e :: es ->
  promise (snd (encoder host (VObject fields))) = Rejected e.
Proof.
  intros Hv. unfold encoder, executor.
  rewrite !get_object, !bind_lift_normal. cbv zeta. rewrite bind_typeCheck.
  set (w1 := reject_all _ fresh).
  assert (Hp1 : promise w1 = Rejected e).
  { subst w1. rewrite reject_all_promise, Hv. reflexivity. }
  match goal with
  | |- context [createDir host reject ?s _] => set (silent := s)
  end.
  destruct (createDir_normal host silent (lookup "output" fields) w1)
    as (w2 & Hcd & _ & _ & _ & _ & Hp).
  unfold bind at 1. rewrite Hcd.
  assert (Hp2 : promise w2 = Rejected e) by (rewrite Hp; congruence).
  unfold bind, lift, ret, fs_createWriteStream, command_run. unfold throw.
  destruct (lookup "output" fields);
    destruct (truthy (lookup "backgroundVideo" fields)); cbv beta iota;
    repeat match goal with
    | |- context [match ?x with _ => _ end] =>
        lazymatch x with
        | context [match _ with _ => _ end] => fail
        | promise _ => fail
        | _ => destruct x; cbv beta iota
        end
    end;
    cbn [snd]; try rewrite settle_settled; cbn [promise]; congruence.
Qed.

Lemma run_job_rejected (host : Host) (fields : list (string * value))
    (e : JsError) (es : list JsError) (evs : list event) :
  violations (VObject fields) = e :: es ->
  promise (run_job host (VObject fields) evs) = Rejected e.
Proof.
  intros Hv. pose proof (encoder_rejected host fields e es Hv) as H.
  unfold run_job. destruct (encoder host (VObject fields)) as [[job|] w];
    cbn [snd] in H; [|assumption].
  rewrite deliver_all_settled; congruence.
Qed.

Lemma In_Reject (e : JsError) (es : list JsError) :
  In (Reject e) (map Reject es) <-> In e es.
Proof.
  rewrite in_map_iff. split.
  - intros (x & Hx & Hin). now injection Hx as <-.
  - intros Hin. now exists e.
Qed.

Lemma violations_fps (config : value) :
  In fps_error (violations config) <-> fps_set (prop config "fps") = false.
Proof.
  unfold violations. rewrite !in_app_iff.
  destruct (instanceof_Readable (prop config "frameStream"));
    destruct (String.eqb (typeof (prop config "output")) "string");
    destruct (fps_set (prop config "fps"));
    destruct (truthy (prop config "backgroundVideo")
              && negb (backgroundVideo_set (prop config "backgroundVideo")));
    cbn [In]; unfold fps_error, frameStream_error, output_error,
                     backgroundVideo_error, Error;
    split; intros H; try discriminate H; try tauto;
    repeat (destruct H as [H|H]; try discriminate H; try contradiction).
Qed.

Lemma violations_backgroundVideo (config : value) :
  In backgroundVideo_error (violations config)
  <-> truthy (prop config "backgroundVideo") = true
      /\ backgroundVideo_set (prop config "backgroundVideo") = false.
Proof.
  unfold violations. rewrite !in_app_iff.
  destruct (instanceof_Readable (prop config "frameStream"));
    destruct (String.eqb (typeof (prop config "output")) "string");
    destruct (fps_set (prop config "fps"));
    destruct (truthy (prop config "backgroundVideo"));
    destruct (backgroundVideo_set (prop config "backgroundVideo"));
    cbn [In andb negb]; unfold fps_error, frameStream_error, output_error,
                     backgroundVideo_error, Error;
    split; intros H; try (destruct H as [H1 H2]; discriminate); try tauto;
    repeat (destruct H as [H|H]; try discriminate H; try contradiction).
Qed.

End OutcomeFacts.

(* ================================================================== *)
(** ** The properties of the specification *)
(* ================================================================== *)

Module Properties.
Import Js Node Encoder Checks Outcomes Samples.
Import NumberFacts RoundTrip ValidatorFacts RunFacts HandlerFacts OutcomeFacts.

(** C2.  A configuration with a frame stream that is readable, an output
    path (a string without NUL character), frame rates and a background
    video [{videoPath, inSeconds: i, outSeconds: o}], where [videoPath] is a
    string and [i] and [o] are numbers or other primitive values, makes the
    encoder build and run a command whose inputs are the background video (input 0) then
    the frame stream (input 1), and whose filter graph has two stages:
    [[1:v]setpts=PTS+i/TB[out]], which shifts the timestamps of the frame
    stream by [i], then an [overlay] of [[0:v][out]] at x = 0, y = 0 enabled
    by [between(t,i,o)], whose output [tmp] is the one mapped output of the
    graph.  For i = 2 and o = 5 the first stage reads [PTS+2/TB] and the
    gate [between(t,2,5)]. *)
Theorem overlay_filter_graph (host : Host)
    (fields bvf fpsf : list (string * value)) (id : nat)
    (out vp : string) (i o : value) :
  lookup "frameStream" fields = VReadable id ->
  readable host id = true ->
  lookup "output" fields = VString out ->
  has_nul out = false ->
  lookup "fps" fields = VObject fpsf ->
  lookup "backgroundVideo" fields = VObject bvf ->
  lookup "videoPath" bvf = VString vp ->
  lookup "inSeconds" bvf = i ->
  lookup "outSeconds" bvf = o ->
  is_primitive i = true ->
  is_primitive o = true ->
  exists job w,
    encoder host (VObject fields) = (Some job, w)
    /\ spawned w = [job_command job]
    /\ map source (cmd_inputs (job_command job)) = [VString vp; VReadable id]
    /\ cmd_complexFilter (job_command job)
       = Some ([ FilterString ("[1:v]setpts=PTS+" ++ toString i ++ "/TB[out]");
                 FilterObject "overlay"
                   [ ("enable", "between(t," ++ toString i ++ ","
                                ++ toString o ++ ")");
                     ("x", "0"); ("y", "0") ]
                   "[0:v][out]" "tmp" ],
               "tmp")
    /\ (i = VNumber (of_Z 2) -> o = VNumber (of_Z 5) ->
        cmd_complexFilter (job_command job)
        = Some ([ FilterString "[1:v]setpts=PTS+2/TB[out]";
                  FilterObject "overlay"
                    [ ("enable", "between(t,2,5)"); ("x", "0"); ("y", "0") ]
                    "[0:v][out]" "tmp" ],
                "tmp")).
Proof.
  intros Hfs Hrd Hout Hnul Hfps Hbv Hvp Hi Ho _ _.
  unfold encoder, executor. rewrite !get_object, !bind_lift_normal.
  cbv zeta. rewrite bind_typeCheck. rewrite Hfs, Hout, Hfps, Hbv.
  set (w1 := reject_all _ fresh).
  match goal with
  | |- context [createDir host reject ?s _] => set (silent := s)
  end.
  destruct (createDir_normal host silent (VString out) w1) as (w2 & Hcd & Hs & Hsp & _).
  unfold bind at 1. rewrite Hcd.
  cbn [truthy]. rewrite !get_object, Hvp, Hi, Ho.
  unfold bind, lift, ret, fs_createWriteStream, command_run, command_input.
  rewrite Hnul, Hrd. cbn -[toString].
  do 2 eexists. split; [reflexivity|]. cbn -[toString].
  rewrite Hsp. subst w1.
  destruct (reject_all_frame (violations (VObject fields)) fresh)
    as (_ & _ & _ & _ & -> & _).
  repeat split. intros -> ->. vm_compute. reflexivity.
Qed.

Lemma overlay_filter_graph_witness :
  exists job w,
    encoder host_ready (config_overlay 2 5) = (Some job, w)
    /\ spawned w = [job_command job]
    /\ map source (cmd_inputs (job_command job))
       = [VString "bg.mp4"; VReadable 0]
    /\ cmd_complexFilter (job_command job)
       = Some ([ FilterString "[1:v]setpts=PTS+2/TB[out]";
                 FilterObject "overlay"
                   [ ("enable", "between(t,2,5)"); ("x", "0"); ("y", "0") ]
                   "[0:v][out]" "tmp" ],
               "tmp").
Proof.
  destruct (overlay_filter_graph host_ready
              [("frameStream", VReadable 0); ("output", VString "out/video.mp4");
               ("fps", rates (num 30) (num 30));
               ("backgroundVideo", window (VString "bg.mp4") (num 2) (num 5))]
              [("videoPath", VString "bg.mp4"); ("inSeconds", num 2);
               ("outSeconds", num 5)]
              [("input", num 30); ("output", num 30)]
              0%nat "out/video.mp4" "bg.mp4" (num 2) (num 5)
              eq_refl eq_refl eq_refl eq_refl eq_refl eq_refl eq_refl eq_refl
              eq_refl eq_refl eq_refl)
    as (job & w & H1 & H2 & H3 & _ & H5).
  exists job, w. repeat split; try assumption.
  apply H5; reflexivity.
Defined.




(** The part of C5 the code keeps.  When the process of a launched job
    emits its completion signal while the promise of the job is still
    pending, the
    promise is fulfilled with [{ path, stream }] where [path] is the
    configured output and [stream] the one stream the job opened on it;
    and no signal delivered afterwards changes the promise. *)
Theorem completion_resolves_pending_job (host : Host) (config : value)
    (job : Job) (w : World) (before after : list event) :
  encoder host config = (Some job, w) ->
  promise (deliver_all job w before) = Pending ->
  exists out,
    get config "output" = Normal (VString out)
    /\ sinks w = [job_stream job]
    /\ ws_path (job_stream job) = out
    /\ promise (deliver job (deliver_all job w before) End_)
       = Fulfilled (mkResult (VString out) (job_stream job))
    /\ promise (deliver_all job
                  (deliver job (deliver_all job w before) End_) after)
       = Fulfilled (mkResult (VString out) (job_stream job)).
Proof.
  intros Henc Hpending.
  destruct (encoder_job host config job w Henc)
    as (fields & out & -> & Hout & Hjob & Hstream & Hsinks & _).
  exists out.
  assert (Hdone : promise (deliver job (deliver_all job w before) End_)
                  = Fulfilled (mkResult (VString out) (job_stream job))).
  { rewrite (deliver_end job _ Hpending). now rewrite Hjob. }
  repeat split.
  - rewrite get_object. now rewrite Hout.
  - assumption.
  - now rewrite Hstream.
  - assumption.
  - rewrite deliver_all_settled; [assumption|]. rewrite Hdone. discriminate.
Qed.

Lemma completion_resolves_pending_job_witness :
  exists job w,
    encoder host_ready config_verbose = (Some job, w)
    /\ promise
         (deliver_all job
            (deliver job
               (deliver_all job w
                  [Start "ffmpeg -i pipe:0"; Progress (percent (of_Z 50))])
               End_)
            [Progress (percent (of_Z 99)); ProcessError "late"; End_])
       = Fulfilled (mkResult (VString "out/video.mp4")
                             (mkStream 0 "out/video.mp4")).
Proof.
  eexists. eexists.
  match goal with
  | |- ?launched /\ _ =>
      assert (Henc : launched) by (vm_compute; reflexivity)
  end.
  split; [exact Henc|].
  match type of Henc with
  | _ = (Some ?job, ?w) =>
      assert (Hpending :
        promise (deliver_all job w
                   [Start "ffmpeg -i pipe:0"; Progress (percent (of_Z 50))])
        = Pending) by (vm_compute; reflexivity)
  end.
  destruct (completion_resolves_pending_job host_ready config_verbose _ _
              [Start "ffmpeg -i pipe:0"; Progress (percent (of_Z 50))]
              [Progress (percent (of_Z 99)); ProcessError "late"; End_]
              Henc Hpending)
    as (out & Hout & _ & _ & _ & Hafter).
  injection Hout as <-. exact Hafter.
Defined.

(** C5, where the code departs from it.  A zero offset makes the validator
    reject the job (it reads [inSeconds: 0] as a missing field), but the
    executor goes on and launches the process; when the process completes
    the handler calls [resolve] on a promise that is already rejected, so
    the job whose process completed does not resolve. *)
Lemma completion_after_rejection :
  let w := run_job host_ready (config_overlay 0 5)
                   [Start "ffmpeg -i bg.mp4 -i pipe:0"; End_] in
  List.length (spawned w) = 1%nat
  /\ promise w = Rejected backgroundVideo_error
  /\ calls w = [ Reject backgroundVideo_error;
                 Resolve (mkResult (VString "out/video.mp4")
                                   (mkStream 0 "out/video.mp4")) ].
Proof. repeat split. Qed.

(** The part of C6 the code keeps.  On an error signal with message [m]
    the handler calls [reject] with an error whose message is [m], verbose
    or not; when the promise is still pending the job is rejected with
    that error. *)
Theorem process_error_rejects_pending_job (job : Job) (w : World) (m : string) :
  promise w = Pending ->
  promise (deliver job w (ProcessError m)) = Rejected (Error m)
  /\ message (Error m) = m
  /\ calls (deliver job w (ProcessError m)) = (calls w ++ [Reject (Error m)])%list.
Proof.
  intros Hpending. split; [|split].
  - now apply deliver_error_promise.
  - reflexivity.
  - apply deliver_error_calls.
Qed.

Lemma process_error_rejects_pending_job_witness :
  promise fresh = Pending
  /\ promise (deliver job_quiet fresh (ProcessError "ffmpeg exited with code 1"))
     = Rejected (Error "ffmpeg exited with code 1")
  /\ promise (deliver job_verbose fresh (ProcessError "ffmpeg exited with code 1"))
     = Rejected (Error "ffmpeg exited with code 1").
Proof.
  split; [reflexivity|]. split.
  - apply (process_error_rejects_pending_job job_quiet fresh
             "ffmpeg exited with code 1" eq_refl).
  - apply (process_error_rejects_pending_job job_verbose fresh
             "ffmpeg exited with code 1" eq_refl).
Defined.

(** C6, where the code departs from it.  When the output directory cannot
    be created the job is rejected by [createDir], but the executor goes
    on and launches the process; the error the process then signals is
    passed to [reject] on a promise that is already rejected, so the job is
    not rejected with the message of the process error. *)
Lemma process_error_after_rejection :
  let m := "Output stream error: ENOENT: no such file or directory" in
  let w := run_job host_denied config_plain
                   [Start "ffmpeg -i pipe:0"; ProcessError m] in
  List.length (spawned w) = 1%nat
  /\ calls w = [ Reject (Error "Cannot create/access output directory");
                 Reject (Error m) ]
  /\ promise w = Rejected (Error "Cannot create/access output directory")
  /\ message (Error "Cannot create/access output directory") <> m.
Proof. repeat split. discriminate. Qed.

(** C7, as the code has it.  The validator signals the frame-rate error
    exactly when [fps], [fps.input] or [fps.output] is falsy (absent,
    [null], [0], [NaN], [false] or the empty string).  A frame rate whose
    two fields are truthy is accepted, whatever their sign or type. *)
Theorem fps_check_is_truthiness (fields : list (string * value)) :
  let fps := lookup "fps" fields in
  In (Reject fps_error) (signalled (VObject fields))
  <-> truthy fps = false
      \/ truthy (prop fps "input") = false
      \/ truthy (prop fps "output") = false.
Proof.
  intros fps. rewrite signalled_object, In_Reject, violations_fps.
  change (prop (VObject fields) "fps") with fps. unfold fps_set.
  destruct (truthy fps), (truthy (prop fps "input")),
    (truthy (prop fps "output")); cbn; intuition discriminate.
Qed.

(** C7, as stated, fails: an input rate of -30 is not a positive number,
    yet the validator signals nothing and the job is launched with its
    promise pending. *)
Lemma negative_fps_accepted :
  number_leb (of_Z (-30)) zero = true
  /\ signalled (config_rates (rates (num (-30)) (num 30))) = []
  /\ promise (snd (encoder host_ready (config_rates (rates (num (-30)) (num 30)))))
     = Pending
  /\ List.length
       (spawned (snd (encoder host_ready
                        (config_rates (rates (num (-30)) (num 30))))))
     = 1%nat.
Proof. repeat split. Qed.

(** C8, as the code has it.  The validator signals the background-video
    error exactly when [backgroundVideo] is truthy and one of [inSeconds],
    [outSeconds] and [videoPath] is falsy.  The two bounds are not compared
    with each other. *)
Theorem backgroundVideo_check_is_truthiness (fields : list (string * value)) :
  let bv := lookup "backgroundVideo" fields in
  In (Reject backgroundVideo_error) (signalled (VObject fields))
  <-> truthy bv = true
      /\ (truthy (prop bv "inSeconds") = false
          \/ truthy (prop bv "outSeconds") = false
          \/ truthy (prop bv "videoPath") = false).
Proof.
  intros bv. rewrite signalled_object, In_Reject, violations_backgroundVideo.
  change (prop (VObject fields) "backgroundVideo") with bv.
  unfold backgroundVideo_set.
  destruct (truthy bv), (truthy (prop bv "inSeconds")),
    (truthy (prop bv "outSeconds")), (truthy (prop bv "videoPath"));
    cbn; intuition discriminate.
Qed.

(** C8, as stated, fails: a window from 5 to 2 has [outSeconds <=
    inSeconds], yet the validator signals nothing and the job is launched
    with its promise pending. *)
Lemma reversed_window_accepted :
  number_leb (of_Z 2) (of_Z 5) = true
  /\ signalled (config_overlay 5 2) = []
  /\ promise (snd (encoder host_ready (config_overlay 5 2))) = Pending
  /\ List.length (spawned (snd (encoder host_ready (config_overlay 5 2))))
     = 1%nat.
Proof. repeat split. Qed.

(** C10.  When [backgroundVideo] is present with [inSeconds] equal to 0,
    the validator signals the error "backgroundVideo property is not
    correctly set", and the job is rejected on every host and whatever the
    process signals afterwards: it is never fulfilled. *)
Theorem zero_inSeconds_rejected (fields bvf : list (string * value))
    (exponent : Z) :
  lookup "backgroundVideo" fields = VObject bvf ->
  lookup "inSeconds" bvf = VNumber (Finite 0 exponent) ->
  In (Reject (Error "backgroundVideo property is not correctly set"))
     (signalled (VObject fields))
  /\ forall (host : Host) (evs : list event),
       exists e, promise (run_job host (VObject fields) evs) = Rejected e.
Proof.
  intros Hbv Hin.
  assert (Hsig : In backgroundVideo_error (violations (VObject fields))).
  { apply violations_backgroundVideo.
    change (prop (VObject fields) "backgroundVideo")
      with (lookup "backgroundVideo" fields).
    rewrite Hbv. split; [reflexivity|].
    unfold backgroundVideo_set.
    change (prop (VObject bvf) "inSeconds") with (lookup "inSeconds" bvf).
    now rewrite Hin. }
  split.
  - rewrite signalled_object. now apply In_Reject.
  - intros host evs.
    destruct (violations (VObject fields)) as [|e es] eqn:Hv; [destruct Hsig|].
    exists e. now apply (run_job_rejected host fields e es).
Qed.

Lemma zero_inSeconds_rejected_witness :
  In (Reject (Error "backgroundVideo property is not correctly set"))
     (signalled (config_overlay 0 5))
  /\ exists e,
       promise (run_job host_ready (config_overlay 0 5)
                        [Start "ffmpeg -i bg.mp4 -i pipe:0"; End_])
       = Rejected e.
Proof.
  destruct (zero_inSeconds_rejected
              [("frameStream", VReadable 0); ("output", VString "out/video.mp4");
               ("fps", rates (num 30) (num 30));
               ("backgroundVideo", window (VString "bg.mp4") (num 0) (num 5))]
              [("videoPath", VString "bg.mp4"); ("inSeconds", num 0);
               ("outSeconds", num 5)]
              0 eq_refl eq_refl) as (Hsignal & Hnever).
  split.
  - exact Hsignal.
  - exact (Hnever host_ready [Start "ffmpeg -i bg.mp4 -i pipe:0"; End_]).
Defined.

(** C1, where the code departs from it.  A configuration without
    [fps.output] fails validation and the promise is rejected with the
    frame-rate error, but the executor goes on: it opens the output stream
    and launches the process. *)
Theorem invalid_config_still_launches :
  let config := config_rates (VObject [("input", num 30)]) in
  signalled config = [Reject fps_error]
  /\ exists job w,
       encoder host_ready config = (Some job, w)
       /\ promise w = Rejected fps_error
       /\ sinks w = [mkStream 0 "out/video.mp4"]
       /\ spawned w = [job_command job].
Proof.
  split; [reflexivity|]. do 2 eexists. split; [reflexivity|]. repeat split.
Qed.

(** C4, where the code departs from it.  When the output directory cannot
    be created, a verbose job writes its diagnostic and the promise is
    rejected with "Cannot create/access output directory" before any
    stream is opened; but the executor goes on, opens the output stream and
    launches the process. *)
Theorem createDir_failure_still_launches :
  createDir_fails host_denied (VString "out/video.mp4") fresh = true
  /\ exists job w,
       encoder host_denied config_verbose = (Some job, w)
       /\ console w = ["Could not create/access output directory"]
       /\ promise w = Rejected (Error "Cannot create/access output directory")
       /\ sinks w = [mkStream 0 "out/video.mp4"]
       /\ spawned w = [job_command job].
Proof.
  split; [reflexivity|]. do 2 eexists. split; [reflexivity|]. repeat split.
Qed.

(** C9, where the code departs from it.  With no frame stream, no output
    rate and a zero offset, [typeCheck] calls [reject] three times; with a
    frame stream, a zero input rate and a zero offset it calls [reject]
    twice, the process is launched, and its completion calls [resolve] as
    well.  The promise keeps the first error in both runs. *)
Theorem reject_called_repeatedly :
  calls (run_job host_ready config_three_faults [])
  = [ Reject (frameStream_error VUndefined); Reject fps_error;
      Reject backgroundVideo_error ]
  /\ promise (run_job host_ready config_three_faults [])
     = Rejected (frameStream_error VUndefined)
  /\ calls (run_job host_ready config_two_faults [Start "ffmpeg"; End_])
     = [ Reject fps_error; Reject backgroundVideo_error;
         Resolve (mkResult (VString "out/video.mp4")
                           (mkStream 0 "out/video.mp4")) ]
  /\ promise (run_job host_ready config_two_faults [Start "ffmpeg"; End_])
     = Rejected fps_error.
Proof. repeat split. Qed.

End Properties.

(* ================================================================== *)
(** ** The executor, case by case *)
(* ================================================================== *)

Module ExecutorFacts.
Import Js Node Encoder Checks Outcomes.
Import ValidatorFacts RunFacts HandlerFacts OutcomeFacts.
Local Open Scope js_scope.

Lemma typeof_is_string (v : value) :
  String.eqb (typeof v) "string" = is_string v.
Proof. destruct v; reflexivity. Qed.

(** What one signal can change. *)
Lemma handler_world (job : Job) (ev : event) (w : World) :
  exists c w', handler job ev w = (c, w')
    /\ made_dirs w' = made_dirs w /\ sinks w' = sinks w
    /\ spawned w' = spawned w /\ uncaught w' = uncaught w
    /\ (truthy (job_silent job) = true ->
        console w' = console w /\ bar w' = bar w /\ c = Normal tt)
    /\ (is_terminal ev = false -> promise w' = promise w /\ calls w' = calls w).
Proof.
  destruct ev as [line | | progress | m]; cbn [handler is_terminal].
  - unfold on_start, bind, console_log, bar_do.
    destruct (truthy (job_silent job)); cbn; do 2 eexists;
      (split; [reflexivity|]); cbn; intuition discriminate.
  - unfold on_end, resolve, settle, log_call, bind, console_log, bar_do.
    destruct (truthy (job_silent job)); cbn; destruct (promise w); cbn;
      do 2 eexists; (split; [reflexivity|]); cbn; intuition discriminate.
  - unfold on_progress.
    destruct (truthy (job_silent job)); cbn [negb when ret].
    + do 2 eexists; split; [reflexivity|]. intuition.
    + unfold bind. pose proof (percent_of_world progress w) as Hp.
      destruct (percent_of progress w) as [[p|e] w0]; cbn [snd] in Hp; subst w0;
        unfold bar_do; do 2 eexists; (split; [reflexivity|]); cbn;
        intuition discriminate.
  - unfold on_error, reject, settle, log_call, bind, console_log.
    destruct (truthy (job_silent job)); cbn; destruct (promise w); cbn;
      do 2 eexists; (split; [reflexivity|]); cbn; intuition discriminate.
Qed.

Lemma deliver_world (job : Job) (ev : event) (w : World) :
  made_dirs (deliver job w ev) = made_dirs w
  /\ sinks (deliver job w ev) = sinks w
  /\ spawned (deliver job w ev) = spawned w
  /\ (truthy (job_silent job) = true ->
      console (deliver job w ev) = console w
      /\ bar (deliver job w ev) = bar w
      /\ uncaught (deliver job w ev) = uncaught w)
  /\ (is_terminal ev = false ->
      promise (deliver job w ev) = promise w
      /\ calls (deliver job w ev) = calls w).
Proof.
  unfold deliver.
  destruct (handler_world job ev w) as (c & w' & -> & Hmd & Hs & Hsp & Hu & Hq & Ht).
  destruct c as [u|e]; cbn;
    (split; [assumption|]); (split; [assumption|]); (split; [assumption|]);
    (split; [|exact Ht]);
    intros H; destruct (Hq H) as (Hc & Hb & Hn);
    [ repeat split; assumption | discriminate Hn ].
Qed.

Lemma deliver_all_quiet (job : Job) (evs : list event) : forall w,
  truthy (job_silent job) = true ->
  console (deliver_all job w evs) = console w
  /\ bar (deliver_all job w evs) = bar w
  /\ uncaught (deliver_all job w evs) = uncaught w.
Proof.
  induction evs as [|ev evs IH]; intros w Hq; [repeat split|].
  change (deliver_all job w (ev :: evs))
    with (deliver_all job (deliver job w ev) evs).
  destruct (IH (deliver job w ev) Hq) as (-> & -> & ->).
  destruct (deliver_world job ev w) as (_ & _ & _ & H & _).
  exact (H Hq).
Qed.

Lemma deliver_all_resources (job : Job) (evs : list event) : forall w,
  made_dirs (deliver_all job w evs) = made_dirs w
  /\ sinks (deliver_all job w evs) = sinks w
  /\ spawned (deliver_all job w evs) = spawned w.
Proof.
  induction evs as [|ev evs IH]; intros w; [repeat split|].
  change (deliver_all job w (ev :: evs))
    with (deliver_all job (deliver job w ev) evs).
  destruct (IH (deliver job w ev)) as (-> & -> & ->).
  destruct (deliver_world job ev w) as (? & ? & ? & _). auto.
Qed.

(** The world after the output stream was opened on a valid path. *)
Lemma open_sink_world (out : string) (w : World) :
  has_nul out = false ->
  open_sink out w
  = mkWorld (console w) (made_dirs w)
            (sinks w ++ [mkStream (List.length (sinks w)) out]) (promise w)
            (calls w) (bar w) (spawned w) (uncaught w).
Proof.
  intros Hnul. unfold open_sink, fs_createWriteStream. now rewrite Hnul.
Qed.

Section OnOneHost.
Variable host : Host.

(** A quiet [createDir] writes nothing. *)
Lemma createDir_quiet (silent output : value) (w w' : World) :
  truthy silent = true ->
  createDir host reject silent output w = (Normal tt, w') ->
  console w' = console w.
Proof.
  intros Hq Hrun.
  destruct (createDir_cases host output w) as [Hf|(s & Hs & Hok)].
  - destruct (createDir_failure_fields host silent output w Hf)
      as (w0 & Hrun0 & _ & Hc & _).
    rewrite Hrun in Hrun0. injection Hrun0 as <-.
    rewrite Hc, Hq. apply app_nil_r.
  - destruct (createDir_ok host silent output s w Hs Hok) as (w0 & Hrun0 & Hc & _).
    rewrite Hrun in Hrun0. now injection Hrun0 as <-.
Qed.

(** On an object the executor ends in one of three ways: before the output
    stream is opened (the output is not a string, or is a path with a NUL
    byte), after it but before [run()], or with the process launched. *)
Lemma encoder_object (fields : list (string * value)) :
  let config := VObject fields in
  let w1 := reject_all (violations config) fresh in
  exists w2,
    createDir host reject (silent_of fields) (lookup "output" fields) w1
    = (Normal tt, w2)
    /\ (((is_string (lookup "output" fields) = false
          \/ exists out, lookup "output" fields = VString out
                         /\ has_nul out = true)
         /\ exists e, encoder host config = (None, settle (Rejected e) w2))
        \/ (exists out e,
              lookup "output" fields = VString out
              /\ has_nul out = false
              /\ encoder host config
                 = (None, settle (Rejected e) (open_sink out w2)))
        \/ (exists out cmd,
              lookup "output" fields = VString out
              /\ has_nul out = false
              /\ encoder host config
                 = (Some (mkJob cmd (silent_of fields) (VString out)
                                (mkStream (List.length (sinks w2)) out)),
                    launch cmd (open_sink out w2)))).
Proof.
  cbv zeta. set (w1 := reject_all _ fresh).
  destruct (createDir_normal host (silent_of fields) (lookup "output" fields) w1)
    as (w2 & Hcd & _).
  exists w2. split; [assumption|].
  destruct (encoder host (VObject fields)) as [r w] eqn:H.
  unfold encoder, executor in H. rewrite !get_object, !bind_lift_normal in H.
  cbv zeta in H. rewrite bind_typeCheck in H. fold w1 in H.
  unfold silent_of in Hcd. cbv zeta in Hcd.
  unfold bind at 1 in H. rewrite Hcd in H. cbv beta iota in H.
  unfold bind, lift, ret, fs_createWriteStream, command_run in H.
  unfold throw in H. unfold open_sink, launch, silent_of. cbv zeta.
  destruct (lookup "output" fields) as [| | b | n | out | id | o];
    try (left; split; [left; reflexivity|]; injection H as <- <-;
         eexists; reflexivity).
  destruct (has_nul out) eqn:Hnul; cbv beta iota in H.
  { left. split; [right; exists out; split; [reflexivity|assumption]|].
    injection H as <- <-. eexists; reflexivity. }
  right.
  destruct (truthy (lookup "backgroundVideo" fields)); cbv beta iota in H;
    repeat match type of H with
    | context [match ?x with _ => _ end] =>
        lazymatch x with
        | context [match _ with _ => _ end] => fail
        | lookup "silent" fields => fail
        | _ => destruct x; cbv beta iota in H
        end
    end;
    injection H as <- <-;
    first [ left; do 2 eexists;
            split; [reflexivity|split; [assumption|]];
            unfold fs_createWriteStream; rewrite Hnul; reflexivity
          | right; do 2 eexists;
            split; [reflexivity|split; [assumption|]];
            unfold fs_createWriteStream; rewrite Hnul; reflexivity ].
Qed.

(** The world in which [createDir] leaves the executor. *)
Lemma after_checks (fields : list (string * value)) (w2 : World) :
  createDir host reject (silent_of fields) (lookup "output" fields)
    (reject_all (violations (VObject fields)) fresh) = (Normal tt, w2) ->
  sinks w2 = [] /\ spawned w2 = [] /\ bar w2 = [] /\ uncaught w2 = []
  /\ (truthy (silent_of fields) = true -> console w2 = []).
Proof.
  intros Hcd. set (w1 := reject_all _ fresh) in Hcd.
  destruct (reject_all_frame (violations (VObject fields)) fresh)
    as (Hc1 & _ & Hs1 & Hb1 & Hsp1 & Hu1). fold w1 in Hc1, Hs1, Hb1, Hsp1, Hu1.
  destruct (createDir_normal host (silent_of fields) (lookup "output" fields) w1)
    as (w2' & Hcd' & Hs & Hsp & Hb & Hu & _).
  rewrite Hcd in Hcd'. injection Hcd' as <-.
  rewrite Hs, Hsp, Hb, Hu, Hs1, Hsp1, Hb1, Hu1. repeat split.
  intros Hq. now rewrite (createDir_quiet _ _ w1 w2 Hq Hcd).
Qed.

End OnOneHost.

(** The progress reports of a verbose job reach the bar one by one. *)
Lemma deliver_reports (job : Job) (reports : list value)
    (percents : list number) (rest : list event) :
  truthy (job_silent job) = false ->
  Forall2 (fun p q => forall w, percent_of p w = (Normal q, w)) reports percents ->
  forall w,
    deliver_all job w (map Progress reports ++ rest)
    = deliver_all job
        (mkWorld (console w) (made_dirs w) (sinks w) (promise w) (calls w)
                 (bar w ++ map BarUpdate percents) (spawned w) (uncaught w))
        rest.
Proof.
  intros Hv Hall. induction Hall as [|p q ps qs Hpq _ IH]; intros w.
  - cbn [map app]. rewrite app_nil_r. now destruct w.
  - cbn [map app].
    change (deliver_all job w (Progress p :: map Progress ps ++ rest))
      with (deliver_all job (deliver job w (Progress p))
              (map Progress ps ++ rest)).
    rewrite (deliver_progress job w p q Hv (Hpq w)), IH. cbn.
    now rewrite <- app_assoc.
Qed.

End ExecutorFacts.

(* ================================================================== *)
(** ** Further properties of the validator, the path preparer, the
       executor and the handlers *)
(* ================================================================== *)

Module Further.
Import Js Node Encoder Checks Outcomes Samples MoreSamples.
Import NumberFacts RoundTrip ValidatorFacts RunFacts HandlerFacts OutcomeFacts.
Import ExecutorFacts.

(** X1.  The validator calls [reject] on no check at all exactly when
    [frameStream] is a Readable, [output] is a string, [fps], [fps.input]
    and [fps.output] are truthy, and [backgroundVideo] is either falsy or
    has truthy [inSeconds], [outSeconds] and [videoPath]. *)
Theorem typeCheck_accepts_iff (fields : list (string * value)) :
  let fps := lookup "fps" fields in
  let bv := lookup "backgroundVideo" fields in
  signalled (VObject fields) = []
  <-> instanceof_Readable (lookup "frameStream" fields) = true
      /\ is_string (lookup "output" fields) = true
      /\ truthy fps = true
      /\ truthy (prop fps "input") = true
      /\ truthy (prop fps "output") = true
      /\ (truthy bv = false
          \/ (truthy (prop bv "inSeconds") = true
              /\ truthy (prop bv "outSeconds") = true
              /\ truthy (prop bv "videoPath") = true)).
Proof.
  intros fps bv. rewrite signalled_object.
  unfold violations, fps_set, backgroundVideo_set.
  change (prop (VObject fields) "frameStream") with (lookup "frameStream" fields).
  change (prop (VObject fields) "output") with (lookup "output" fields).
  change (prop (VObject fields) "fps") with fps.
  change (prop (VObject fields) "backgroundVideo") with bv.
  rewrite typeof_is_string.
  destruct (instanceof_Readable (lookup "frameStream" fields)),
    (is_string (lookup "output" fields)), (truthy fps),
    (truthy (prop fps "input")), (truthy (prop fps "output")), (truthy bv),
    (truthy (prop bv "inSeconds")), (truthy (prop bv "outSeconds")),
    (truthy (prop bv "videoPath")); cbn; intuition discriminate.
Qed.

(** X2.  On an object the validator never throws and does nothing but call
    [reject], at most four times: the console, the file system, the
    streams, the bar and the processes are as before, and a promise that
    was settled stays as it was. *)
Theorem typeCheck_only_rejects (fields : list (string * value)) (w : World) :
  exists w' es,
    typeCheck reject (VObject fields) w = (Normal tt, w')
    /\ calls w' = (calls w ++ map Reject es)%list
    /\ (List.length es <= 4)%nat
    /\ console w' = console w /\ made_dirs w' = made_dirs w
    /\ sinks w' = sinks w /\ bar w' = bar w /\ spawned w' = spawned w
    /\ uncaught w' = uncaught w
    /\ (promise w <> Pending -> promise w' = promise w).
Proof.
  exists (reject_all (violations (VObject fields)) w), (violations (VObject fields)).
  split; [apply typeCheck_object|]. split; [apply reject_all_calls|]. split.
  - unfold violations. rewrite !length_app.
    repeat match goal with
    | |- context [if ?b then _ else _] => destruct b
    end; cbn; lia.
  - destruct (reject_all_frame (violations (VObject fields)) w)
      as (-> & -> & -> & -> & -> & ->).
    repeat split. intros Hp. rewrite reject_all_promise.
    destruct (promise w); congruence.
Qed.

(** X3.  A configuration that is not an object ([undefined], [null], a
    boolean, a number, a string, a stream) rejects the job without opening
    a stream, creating a directory, launching a process or writing to the
    console: with a TypeError and no call of [reject] for [undefined] and
    [null], with the frame-stream error otherwise. *)
Theorem non_object_config_rejected (host : Host) (config : value) :
  is_object config = false ->
  exists w e,
    encoder host config = (None, w)
    /\ promise w = Rejected e
    /\ (is_nullish config = true -> err_class e = TypeErrorClass /\ calls w = [])
    /\ (is_nullish config = false -> e = frameStream_error VUndefined)
    /\ sinks w = [] /\ spawned w = [] /\ made_dirs w = [] /\ console w = [].
Proof.
  intros Hobj. destruct config as [| | b | n | s | id | fields];
    [ | | | | | | discriminate Hobj ];
    do 2 eexists; (split; [vm_compute; reflexivity|]);
    repeat split; try discriminate; intros; discriminate.
Qed.

Lemma non_object_config_rejected_witness :
  exists w,
    encoder host_ready (VString "out/video.mp4") = (None, w)
    /\ promise w = Rejected (frameStream_error VUndefined)
    /\ sinks w = [] /\ spawned w = [].
Proof.
  destruct (non_object_config_rejected host_ready (VString "out/video.mp4")
              eq_refl)
    as (w & e & Henc & Hp & _ & He & Hs & Hsp & _).
  exists w. rewrite (He eq_refl) in Hp. repeat split; assumption.
Defined.

(** X4.  When [output] is a primitive value other than a string
    ([undefined], [null], a boolean or a number) the job opens no stream,
    creates no directory and launches no process, on any host: [createDir]
    fails on the path and calls [reject] after the validator did, the
    executor stops at [fs.createWriteStream], and the job is rejected with
    the frame-stream error if that check failed too, with the output error
    otherwise. *)
Theorem primitive_output_opens_nothing (host : Host)
    (fields : list (string * value)) :
  is_primitive (lookup "output" fields) = true ->
  is_string (lookup "output" fields) = false ->
  exists w e,
    encoder host (VObject fields) = (None, w)
    /\ promise w = Rejected e
    /\ In e [ frameStream_error (lookup "frameStream" fields);
              output_error (lookup "output" fields) ]
    /\ calls w
       = (signalled (VObject fields)
          ++ [Reject (Error "Cannot create/access output directory")])%list
    /\ sinks w = [] /\ spawned w = [] /\ made_dirs w = [].
Proof.
  intros Hprim Hns.
  destruct (encoder_object host fields)
    as (w2 & Hcd & [(_ & e0 & Henc) | [(out & e0 & Hout & _) | (out & c & Hout & _)]]);
    [ | rewrite Hout in Hns; discriminate Hns
      | rewrite Hout in Hns; discriminate Hns ].
  cbv zeta in Hcd. set (w1 := reject_all _ fresh) in Hcd.
  assert (Hfail : createDir_fails host (lookup "output" fields) w1 = true).
  { unfold createDir_fails. destruct (lookup "output" fields);
      try reflexivity. discriminate Hns. }
  assert (Hafter : after_failed_mkdir host (lookup "output" fields) w1 = w1).
  { destruct (lookup "output" fields); try reflexivity. discriminate Hns. }
  destruct (createDir_failure_fields host (silent_of fields) _ w1 Hfail)
    as (w2' & Hcd' & Hc2 & _ & Hp2 & Hmd2 & Hs2 & Hsp2 & _).
  rewrite Hcd in Hcd'. injection Hcd' as <-. rewrite Hafter in Hmd2.
  assert (Hv : exists e1 es,
    violations (VObject fields) = e1 :: es
    /\ In e1 [ frameStream_error (lookup "frameStream" fields);
               output_error (lookup "output" fields) ]).
  { unfold violations.
    change (prop (VObject fields) "frameStream") with (lookup "frameStream" fields).
    change (prop (VObject fields) "output") with (lookup "output" fields).
    rewrite typeof_is_string, Hns.
    destruct (instanceof_Readable (lookup "frameStream" fields)); cbn [app];
      do 2 eexists; (split; [reflexivity|]); cbn; auto. }
  destruct Hv as (e1 & es & Hv & Hin).
  assert (Hp1 : promise w1 = Rejected e1).
  { subst w1. now rewrite reject_all_promise, Hv. }
  pose proof (reject_all_calls (violations (VObject fields)) fresh) as Hc1.
  destruct (reject_all_frame (violations (VObject fields)) fresh)
    as (_ & Hmd & Hs1 & _ & Hsp1 & _).
  fold w1 in Hc1, Hmd, Hs1, Hsp1.
  rewrite Hp1 in Hp2.
  exists (settle (Rejected e0) w2), e1. split; [assumption|].
  rewrite signalled_object. unfold settle. rewrite Hp2.
  rewrite Hp2, Hc2, Hc1, Hs2, Hs1, Hsp2, Hsp1, Hmd2, Hmd.
  repeat split; assumption.
Qed.

Lemma primitive_output_opens_nothing_witness :
  exists w,
    encoder host_ready
      (VObject [("frameStream", VReadable 0); ("output", VNumber (of_Z 42));
                ("fps", rates (num 30) (num 30))])
    = (None, w)
    /\ promise w = Rejected (output_error (VNumber (of_Z 42)))
    /\ sinks w = [] /\ spawned w = [].
Proof.
  destruct (primitive_output_opens_nothing host_ready
              [("frameStream", VReadable 0); ("output", VNumber (of_Z 42));
               ("fps", rates (num 30) (num 30))] eq_refl eq_refl)
    as (w & e & Henc & Hp & Hin & _ & Hs & Hsp & _).
  exists w. split; [exact Henc|].
  assert (Hrun : encoder host_ready
      (VObject [("frameStream", VReadable 0); ("output", VNumber (of_Z 42));
                ("fps", rates (num 30) (num 30))])
    = (None, settle (Rejected (output_error (VNumber (of_Z 42))))
               (snd (reject (Error "Cannot create/access output directory")
                       (snd (reject (output_error (VNumber (of_Z 42)))
                               fresh))))))
    by (vm_compute; reflexivity).
  rewrite Hrun in Henc. injection Henc as Hw. subst w.
  repeat split; reflexivity.
Defined.

(** X6.  When [fps] is [undefined] or [null] while the frame stream is a
    Readable and the output is a path without NUL byte, the job is rejected
    with the frame-rate error; the executor opens the output stream all the
    same, then stops before [run()], at [fps.input] at the latest: one
    stream is opened and no process is launched, whatever [backgroundVideo]
    is and whether or not the frame stream can still be read. *)
Theorem missing_fps_opens_sink_without_launch (host : Host)
    (fields : list (string * value)) (id : nat) (out : string) :
  lookup "frameStream" fields = VReadable id ->
  lookup "output" fields = VString out ->
  has_nul out = false ->
  is_nullish (lookup "fps" fields) = true ->
  exists w,
    encoder host (VObject fields) = (None, w)
    /\ promise w = Rejected fps_error
    /\ sinks w = [mkStream 0 out]
    /\ spawned w = [].
Proof.
  intros Hfs Hout Hnul Hfps.
  assert (Hv : exists es, violations (VObject fields) = fps_error :: es).
  { unfold violations.
    change (prop (VObject fields) "frameStream") with (lookup "frameStream" fields).
    change (prop (VObject fields) "output") with (lookup "output" fields).
    change (prop (VObject fields) "fps") with (lookup "fps" fields).
    rewrite Hfs, Hout.
    replace (fps_set (lookup "fps" fields)) with false
      by (destruct (lookup "fps" fields); try discriminate Hfps; reflexivity).
    cbn. eexists; reflexivity. }
  destruct Hv as (es & Hv).
  pose proof (encoder_rejected host fields fps_error es Hv) as Hp.
  destruct (encoder_object host fields)
    as (w2 & Hcd & [(Hns & _) | [(out' & e & Hout' & _ & Henc)
                                 | (out' & c & Hout' & _ & Henc)]]).
  - destruct Hns as [Hns | (out' & Hout' & Hnul')].
    + rewrite Hout in Hns. discriminate Hns.
    + rewrite Hout in Hout'. injection Hout' as <-.
      rewrite Hnul in Hnul'. discriminate Hnul'.
  - rewrite Hout in Hout'. injection Hout' as <-.
    cbv zeta in Hcd. set (w1 := reject_all _ fresh) in Hcd.
    destruct (createDir_normal host (silent_of fields) (lookup "output" fields) w1)
      as (w2' & Hcd' & Hs & Hsp & _).
    rewrite Hcd in Hcd'. injection Hcd' as <-.
    destruct (reject_all_frame (violations (VObject fields)) fresh)
      as (_ & _ & Hs1 & _ & Hsp1 & _). fold w1 in Hs1, Hsp1.
    rewrite Henc in Hp. cbn [snd] in Hp.
    exists (settle (Rejected e) (open_sink out w2)).
    split; [assumption|]. split; [assumption|].
    unfold settle, open_sink, fs_createWriteStream. rewrite Hnul. cbn.
    destruct (promise w2); cbn; rewrite Hs, Hs1, Hsp, Hsp1; split; reflexivity.
  - exfalso. rewrite Hout in Hout'. injection Hout' as <-.
    revert Henc. unfold encoder, executor.
    rewrite !get_object, !bind_lift_normal. cbv zeta. rewrite bind_typeCheck.
    cbv zeta in Hcd. unfold silent_of in Hcd. cbv zeta in Hcd.
    unfold bind at 1. rewrite Hcd. cbv beta iota. rewrite Hout.
    unfold bind, lift, ret, fs_createWriteStream, command_run.
    destruct (lookup "fps" fields); try discriminate Hfps;
      destruct (truthy (lookup "backgroundVideo" fields));
      cbn [get]; cbv beta iota;
      repeat match goal with
      | |- context [match ?x with _ => _ end] =>
          lazymatch x with
          | context [match _ with _ => _ end] => fail
          | lookup "silent" fields => fail
          | _ => destruct x; cbv beta iota
          end
      end; intros Henc; discriminate Henc.
Qed.

Lemma missing_fps_opens_sink_without_launch_witness :
  exists w,
    encoder host_ready
      (VObject [("frameStream", VReadable 0); ("output", VString "out/video.mp4")])
    = (None, w)
    /\ promise w = Rejected fps_error
    /\ sinks w = [mkStream 0 "out/video.mp4"]
    /\ spawned w = [].
Proof.
  exact (missing_fps_opens_sink_without_launch host_ready
           [("frameStream", VReadable 0); ("output", VString "out/video.mp4")]
           0%nat "out/video.mp4" eq_refl eq_refl eq_refl eq_refl).
Defined.

(** X5.  A well-formed job without background video, whose frame stream
    can be read and whose output path holds no NUL byte, on a host where
    the output directory exists or can be created, is launched with its
    promise pending and no call of [reject]: one output stream is opened,
    nothing is written to the console, and the command has the frame stream
    as its only input, read at [fps.input], the five fixed output options,
    the output rate [fps.output], no filter graph, and the stream as
    output. *)
Theorem plain_job_launched (host : Host) (fields fpsf : list (string * value))
    (id : nat) (out : string) :
  lookup "frameStream" fields = VReadable id ->
  readable host id = true ->
  lookup "output" fields = VString out ->
  has_nul out = false ->
  lookup "fps" fields = VObject fpsf ->
  truthy (lookup "input" fpsf) = true ->
  truthy (lookup "output" fpsf) = true ->
  truthy (lookup "backgroundVideo" fields) = false ->
  existsSync host (dirname host out) = true
    \/ mkdirSync host (dirname host out) = None ->
  exists job w,
    encoder host (VObject fields) = (Some job, w)
    /\ job_command job
       = mkCommand [mkInput (VReadable id) (Some (lookup "input" fpsf))]
                   [ "-preset veryfast"; "-crf 24"; "-f mp4";
                     "-movflags frag_keyframe+empty_moov"; "-pix_fmt yuv420p" ]
                   (Some (lookup "output" fpsf)) None
                   (Some (mkStream 0 out))
    /\ job_output job = VString out
    /\ job_stream job = mkStream 0 out
    /\ promise w = Pending /\ calls w = [] /\ console w = [] /\ bar w = []
    /\ sinks w = [mkStream 0 out]
    /\ spawned w = [job_command job].
Proof.
  intros Hfs Hread Hout Hnul Hfps Hin Hou Hbv Hdir.
  assert (Hv : violations (VObject fields) = []).
  { unfold violations, fps_set.
    change (prop (VObject fields) "frameStream") with (lookup "frameStream" fields).
    change (prop (VObject fields) "output") with (lookup "output" fields).
    change (prop (VObject fields) "fps") with (lookup "fps" fields).
    change (prop (VObject fields) "backgroundVideo")
      with (lookup "backgroundVideo" fields).
    rewrite Hfs, Hout, Hfps, Hbv.
    change (prop (VObject fpsf) "input") with (lookup "input" fpsf).
    change (prop (VObject fpsf) "output") with (lookup "output" fpsf).
    now rewrite Hin, Hou. }
  unfold encoder, executor. rewrite !get_object, !bind_lift_normal.
  cbv zeta. rewrite bind_typeCheck, Hv. change (reject_all [] fresh) with fresh.
  rewrite Hfs, Hout, Hfps, Hbv.
  match goal with
  | |- context [createDir host reject ?s _] => set (silent := s)
  end.
  destruct (createDir_ok host silent (VString out) out fresh eq_refl)
    as (w2 & Hcd & Hc & Hs & Hp & Hcl & Hb & Hsp & _).
  { destruct Hdir as [Hex | Hmk]; [left | now right].
    unfold needs_mkdir. now rewrite Hex. }
  unfold bind at 1. rewrite Hcd. rewrite !get_object.
  unfold bind, lift, ret, fs_createWriteStream, command_run, command_input.
  rewrite Hnul, Hread. cbn.
  do 2 eexists. split; [reflexivity|]. cbn.
  rewrite Hs, Hp, Hcl, Hc, Hb, Hsp. repeat split.
Qed.

Lemma plain_job_launched_witness :
  exists job w,
    encoder host_ready config_plain = (Some job, w)
    /\ promise w = Pending /\ calls w = []
    /\ sinks w = [mkStream 0 "out/video.mp4"]
    /\ spawned w = [job_command job].
Proof.
  destruct (plain_job_launched host_ready
              [("frameStream", VReadable 0); ("output", VString "out/video.mp4");
               ("fps", rates (num 30) (num 30))]
              [("input", num 30); ("output", num 30)] 0%nat "out/video.mp4"
              eq_refl eq_refl eq_refl eq_refl eq_refl eq_refl eq_refl eq_refl
              (or_introl eq_refl))
    as (job & w & Henc & _ & _ & _ & Hp & Hc & _ & _ & Hs & Hsp).
  exists job, w. repeat split; assumption.
Defined.

(** X7.  When the directory of the output path exists, [createDir] does
    nothing at all: no directory is created, nothing is written, [reject]
    is not called. *)
Theorem createDir_existing_directory (host : Host) (silent : value)
    (out : string) (w : World) :
  existsSync host (dirname host out) = true ->
  createDir host reject silent (VString out) w = (Normal tt, w).
Proof.
  intros Hex. unfold createDir, try_catch, bind, path_dirname, ret, fs_existsSync.
  now rewrite Hex.
Qed.

Lemma createDir_existing_directory_witness :
  createDir host_ready reject (VBool false) (VString "out/video.mp4") fresh
  = (Normal tt, fresh).
Proof.
  exact (createDir_existing_directory host_ready (VBool false) "out/video.mp4"
           fresh eq_refl).
Defined.

(** X8.  When the directory of the output path is missing and can be
    created, [createDir] creates that directory, after the parents of it
    that are missing, and changes nothing else; called again on the same
    path it does nothing. *)
Theorem createDir_creates_once (host : Host) (silent : value) (out : string)
    (w : World) :
  existsSync host (dirname host out) = false ->
  existsb (String.eqb (dirname host out)) (made_dirs w) = false ->
  mkdirSync host (dirname host out) = None ->
  let w' := mkWorld (console w)
                    (made_dirs w ++ mkdir_parents host (dirname host out)
                                 ++ [dirname host out])
                    (sinks w) (promise w) (calls w) (bar w) (spawned w)
                    (uncaught w) in
  createDir host reject silent (VString out) w = (Normal tt, w')
  /\ createDir host reject silent (VString out) w' = (Normal tt, w').
Proof.
  intros Hex Hmade Hmk w'. subst w'.
  unfold createDir, try_catch, bind, path_dirname, ret, fs_existsSync,
    fs_mkdirSync, with_dirs.
  rewrite Hex, Hmade, Hmk. cbn [orb negb when made_dirs]. split; [reflexivity|].
  rewrite !existsb_app. cbn [existsb]. rewrite String.eqb_refl.
  now rewrite !orb_true_r.
Qed.

Lemma createDir_creates_once_witness :
  (exists w',
     createDir host_empty reject (VBool true) (VString "out/video.mp4") fresh
     = (Normal tt, w')
     /\ made_dirs w' = ["out"]
     /\ createDir host_empty reject (VBool true) (VString "out/video.mp4") w'
        = (Normal tt, w'))
  /\ exists w',
       createDir host_empty reject (VBool true) (VString "a/b/video.mp4") fresh
       = (Normal tt, w')
       /\ made_dirs w' = ["a"; "a/b"].
Proof.
  split.
  - destruct (createDir_creates_once host_empty (VBool true) "out/video.mp4"
                fresh eq_refl eq_refl eq_refl) as (Hfirst & Hagain).
    eexists. split; [exact Hfirst|]. split; [reflexivity | exact Hagain].
  - destruct (createDir_creates_once host_empty (VBool true) "a/b/video.mp4"
                fresh eq_refl eq_refl eq_refl) as (Hfirst & _).
    eexists. split; [exact Hfirst|]. reflexivity.
Defined.

(** X9.  When the directory of the output path is missing and [mkdirSync]
    throws, [createDir] swallows the exception: it returns normally, calls
    [reject] once with the fixed message "Cannot create/access output
    directory" whatever the cause was, writes its one diagnostic line
    exactly when the job is verbose, and leaves the streams and the
    processes as they were; on the file system it leaves the parents that
    [mkdirSync] created before it threw, and nothing else. *)
Theorem createDir_swallows_cause (host : Host) (silent : value) (out : string)
    (cause : JsError) (w : World) :
  existsSync host (dirname host out) = false ->
  existsb (String.eqb (dirname host out)) (made_dirs w) = false ->
  mkdirSync host (dirname host out) = Some cause ->
  exists w',
    createDir host reject silent (VString out) w = (Normal tt, w')
    /\ calls w'
       = (calls w ++ [Reject (Error "Cannot create/access output directory")])%list
    /\ console w'
       = (console w ++ (if truthy silent then []
                       else ["Could not create/access output directory"]))%list
    /\ promise w'
       = match promise w with
         | Pending => Rejected (Error "Cannot create/access output directory")
         | settled => settled
         end
    /\ made_dirs w'
       = (made_dirs w ++ mkdir_parents host (dirname host out))%list
    /\ sinks w' = sinks w
    /\ spawned w' = spawned w.
Proof.
  intros Hex Hmade Hmk.
  unfold createDir, try_catch, bind, path_dirname, ret, fs_existsSync,
    fs_mkdirSync, with_dirs.
  rewrite Hex, Hmade, Hmk. cbn [orb negb when].
  unfold reject, settle, log_call, console_log.
  destruct (truthy silent); cbn; destruct (promise w); cbn;
    eexists; (split; [reflexivity|]); cbn; rewrite ?app_nil_r; repeat split.
Qed.

Lemma createDir_swallows_cause_witness :
  (exists w',
     createDir host_denied reject (VBool false) (VString "out/video.mp4") fresh
     = (Normal tt, w')
     /\ calls w' = [Reject (Error "Cannot create/access output directory")]
     /\ console w' = ["Could not create/access output directory"])
  /\ exists w',
       createDir host_half reject (VBool true) (VString "a/b/video.mp4") fresh
       = (Normal tt, w')
       /\ calls w' = [Reject (Error "Cannot create/access output directory")]
       /\ made_dirs w' = ["a"].
Proof.
  split.
  - destruct (createDir_swallows_cause host_denied (VBool false)
                "out/video.mp4" (Error "EACCES: permission denied, mkdir")
                fresh eq_refl eq_refl eq_refl)
      as (w' & Hrun & Hcalls & Hconsole & _).
    exists w'. repeat split; assumption.
  - destruct (createDir_swallows_cause host_half (VBool true)
                "a/b/video.mp4" (Error "EACCES: permission denied, mkdir")
                fresh eq_refl eq_refl eq_refl)
      as (w' & Hrun & Hcalls & _ & _ & Hdirs & _).
    exists w'. repeat split; assumption.
Defined.

(** X10.  A quiet job ([silent] truthy) writes nothing: whatever signals
    the process sends, in whatever order, the console and the progress bar
    are left as they were and no handler throws. *)
Theorem quiet_job_is_silent (job : Job) (w : World) (evs : list event) :
  truthy (job_silent job) = true ->
  console (deliver_all job w evs) = console w
  /\ bar (deliver_all job w evs) = bar w
  /\ uncaught (deliver_all job w evs) = uncaught w.
Proof.
  intros Hq. revert w. induction evs as [|ev evs IH]; intros w; [repeat split|].
  change (deliver_all job w (ev :: evs))
    with (deliver_all job (deliver job w ev) evs).
  destruct (IH (deliver job w ev)) as (-> & -> & ->).
  destruct (deliver_world job ev w) as (_ & _ & _ & Hquiet & _).
  exact (Hquiet Hq).
Qed.

Lemma quiet_job_is_silent_witness :
  console (deliver_all job_quiet fresh
             [Start "ffmpeg"; Progress (percent (of_Z 50));
              Progress VUndefined; ProcessError "boom"; End_]) = []
  /\ bar (deliver_all job_quiet fresh
            [Start "ffmpeg"; Progress (percent (of_Z 50));
             Progress VUndefined; ProcessError "boom"; End_]) = []
  /\ uncaught (deliver_all job_quiet fresh
                 [Start "ffmpeg"; Progress (percent (of_Z 50));
                  Progress VUndefined; ProcessError "boom"; End_]) = [].
Proof.
  exact (quiet_job_is_silent job_quiet fresh
           [Start "ffmpeg"; Progress (percent (of_Z 50));
            Progress VUndefined; ProcessError "boom"; End_] eq_refl).
Defined.

(** X11.  Start and progress signals never decide the outcome: after any
    number of them, verbose or not, and even when a progress handler
    throws, the promise is as it was and neither [resolve] nor [reject] has
    been called. *)
Theorem progress_never_settles (job : Job) (evs : list event) (w : World) :
  forallb (fun ev => negb (is_terminal ev)) evs = true ->
  promise (deliver_all job w evs) = promise w
  /\ calls (deliver_all job w evs) = calls w.
Proof.
  revert w. induction evs as [|ev evs IH]; intros w Hevs; [split; reflexivity|].
  cbn [forallb] in Hevs. apply andb_prop in Hevs as [Hev Hevs].
  apply negb_true_iff in Hev.
  change (deliver_all job w (ev :: evs))
    with (deliver_all job (deliver job w ev) evs).
  destruct (IH (deliver job w ev) Hevs) as (-> & ->).
  destruct (deliver_world job ev w) as (_ & _ & _ & _ & H).
  exact (H Hev).
Qed.

Lemma progress_never_settles_witness :
  promise (deliver_all job_verbose fresh
             [Start "ffmpeg"; Progress (percent (of_Z 50));
              Progress VUndefined; Progress (percent_text "50")]) = Pending
  /\ calls (deliver_all job_verbose fresh
              [Start "ffmpeg"; Progress (percent (of_Z 50));
               Progress VUndefined; Progress (percent_text "50")]) = [].
Proof.
  exact (progress_never_settles job_verbose
           [Start "ffmpeg"; Progress (percent (of_Z 50));
            Progress VUndefined; Progress (percent_text "50")] fresh eq_refl).
Defined.

(** X12.  While the promise is pending, the first end or error signal of
    the process decides the outcome for good: the job is fulfilled with
    [{ path, stream }] if that signal is an end, rejected with the message
    of the signal if it is an error, and still pending if there is none;
    the signals before it and after it do not matter. *)
Theorem first_signal_decides (job : Job) (evs : list event) (w : World) :
  promise w = Pending ->
  promise (deliver_all job w evs) = first_outcome job evs.
Proof.
  revert w. induction evs as [|ev evs IH]; intros w Hp; [assumption|].
  change (deliver_all job w (ev :: evs))
    with (deliver_all job (deliver job w ev) evs).
  cbn [first_outcome]. destruct (is_terminal ev) eqn:Hterm.
  - assert (Hdone : promise (deliver job w ev) = settlement_of job ev).
    { destruct ev; try discriminate Hterm; cbn [settlement_of].
      - now apply deliver_end.
      - now apply deliver_error_promise. }
    rewrite deliver_all_settled; [assumption|].
    rewrite Hdone. destruct ev; try discriminate Hterm; discriminate.
  - apply IH. destruct (deliver_world job ev w) as (_ & _ & _ & _ & H).
    destruct (H Hterm) as [-> _]. assumption.
Qed.

Lemma first_signal_decides_witness :
  promise (deliver_all job_quiet fresh
             [Start "ffmpeg"; Progress (percent (of_Z 50));
              ProcessError "boom"; End_; ProcessError "again"])
  = Rejected (Error "boom").
Proof.
  exact (first_signal_decides job_quiet
           [Start "ffmpeg"; Progress (percent (of_Z 50));
            ProcessError "boom"; End_; ProcessError "again"] fresh eq_refl).
Defined.

(** X13.  In verbose mode a progress report whose percent is truthy but
    not a number (a string, [true], an object) makes the handler throw a
    TypeError at [toFixed]: the bar is not updated, and nothing else
    changes. *)
Theorem progress_with_non_number_throws (job : Job) (w : World)
    (progress raw : value) :
  truthy (job_silent job) = false ->
  get progress "percent" = Normal raw ->
  truthy raw = true ->
  is_number raw = false ->
  exists e,
    deliver job w (Progress progress) = note_uncaught e w
    /\ err_class e = TypeErrorClass
    /\ bar (deliver job w (Progress progress)) = bar w.
Proof.
  intros Hv Hget Hraw Hnum.
  unfold deliver, handler, on_progress. rewrite Hv. cbn [negb when].
  unfold percent_of. unfold bind, lift, ret. rewrite Hget. cbv beta iota.
  rewrite Hraw.
  destruct raw; try discriminate Hraw; try discriminate Hnum;
    cbn; eexists; repeat split.
Qed.

Lemma progress_with_non_number_throws_witness :
  exists e,
    deliver job_verbose fresh (Progress (percent_text "50"))
    = note_uncaught e fresh
    /\ err_class e = TypeErrorClass.
Proof.
  destruct (progress_with_non_number_throws job_verbose fresh
              (percent_text "50") (VString "50") eq_refl eq_refl eq_refl eq_refl)
    as (e & Hrun & Hclass & _).
  exists e. split; assumption.
Defined.

(** X14.  A job is quiet unless told otherwise: when [silent] is absent
    (or truthy), nothing is written to the console and the progress bar is
    never touched, on any host, whether validation or the directory step
    fails or not, and whatever the process signals. *)
Theorem quiet_by_default (host : Host) (fields : list (string * value))
    (evs : list event) :
  lookup "silent" fields = VUndefined
    \/ truthy (lookup "silent" fields) = true ->
  console (run_job host (VObject fields) evs) = []
  /\ bar (run_job host (VObject fields) evs) = [].
Proof.
  intros Hsilent.
  assert (Hq : truthy (silent_of fields) = true).
  { unfold silent_of. cbv zeta. destruct Hsilent as [-> | H]; [reflexivity|].
    destruct (lookup "silent" fields); try discriminate H; assumption. }
  destruct (encoder_object host fields)
    as (w2 & Hcd & [(_ & e & Henc) | [(out & e & _ & Hnul & Henc)
                                     | (out & c & _ & Hnul & Henc)]]);
    cbv zeta in Hcd;
    destruct (after_checks host fields w2 Hcd) as (_ & _ & Hb & _ & Hc);
    specialize (Hc Hq); unfold run_job; rewrite Henc.
  - unfold settle. destruct (promise w2); cbn; auto.
  - rewrite (open_sink_world out w2 Hnul). unfold settle. cbn.
    destruct (promise w2); cbn; auto.
  - destruct (deliver_all_quiet
                (mkJob c (silent_of fields) (VString out)
                       (mkStream (List.length (sinks w2)) out))
                evs (launch c (open_sink out w2)) Hq) as (-> & -> & _).
    rewrite (open_sink_world out w2 Hnul). cbn. auto.
Qed.

Lemma quiet_by_default_witness :
  console (run_job host_denied config_plain
             [Start "ffmpeg"; Progress (percent (of_Z 50)); ProcessError "boom"])
  = []
  /\ bar (run_job host_denied config_plain
            [Start "ffmpeg"; Progress (percent (of_Z 50)); ProcessError "boom"])
  = [].
Proof.
  exact (quiet_by_default host_denied
           [("frameStream", VReadable 0); ("output", VString "out/video.mp4");
            ("fps", rates (num 30) (num 30))]
           [Start "ffmpeg"; Progress (percent (of_Z 50)); ProcessError "boom"]
           (or_introl eq_refl)).
Defined.

(** X15.  Whatever the configuration and the host, the executor opens at
    most one output stream and launches at most one process; a process is
    launched only after the stream was opened, with that stream as the
    output of the command; and the executor itself never touches the
    progress bar. *)
Theorem encoder_resources (host : Host) (config : value) :
  (List.length (sinks (snd (encoder host config))) <= 1)%nat
  /\ bar (snd (encoder host config)) = []
  /\ match fst (encoder host config) with
     | Some job =>
         sinks (snd (encoder host config)) = [job_stream job]
         /\ spawned (snd (encoder host config)) = [job_command job]
         /\ cmd_output (job_command job) = Some (job_stream job)
     | None => spawned (snd (encoder host config)) = []
     end.
Proof.
  destruct config as [| | b | n | s | id | fields].
  1-6: vm_compute; repeat split; lia.
  destruct (encoder_object host fields)
    as (w2 & Hcd & [(_ & e & Henc) | [(out & e & _ & Hnul & Henc)
                                     | (out & c & _ & Hnul & Henc)]]);
    cbv zeta in Hcd;
    destruct (after_checks host fields w2 Hcd) as (Hs & Hsp & Hb & _ & _).
  - rewrite Henc. cbn [fst snd]. unfold settle.
    destruct (promise w2); cbn; rewrite Hs, Hsp, Hb; cbn; repeat split; lia.
  - rewrite Henc. cbn [fst snd]. rewrite (open_sink_world out w2 Hnul).
    unfold settle. cbn.
    destruct (promise w2); cbn; rewrite Hs, Hsp, Hb; cbn; repeat split; lia.
  - destruct (encoder_job host _ _ _ Henc)
      as (fields' & out' & _ & _ & _ & _ & Hsinks & Hspawned & Hout).
    rewrite Henc. cbn [fst snd].
    split; [rewrite Hsinks; cbn; lia|].
    split; [rewrite (open_sink_world out w2 Hnul); unfold launch; cbn; exact Hb|].
    repeat split; assumption.
Qed.

(** X16.  For a verbose job, a start signal, then progress reports, then
    the end signal drive the bar through exactly [start(100, 0)], one
    update per report in order, and [stop()], and write the two diagnostic
    lines around them. *)
Theorem verbose_bar_lifecycle (job : Job) (w : World) (line : string)
    (reports : list value) (percents : list number) :
  truthy (job_silent job) = false ->
  Forall2 (fun p q => forall w0, percent_of p w0 = (Normal q, w0))
          reports percents ->
  bar (deliver_all job w (Start line :: map Progress reports ++ [End_]))
  = (bar w ++ BarStart 100 0 :: map BarUpdate percents ++ [BarStop])%list
  /\ console (deliver_all job w (Start line :: map Progress reports ++ [End_]))
     = (console w ++ [ ("Spawned Ffmpeg with command: " ++ line)%string;
                      "Processing complete..." ])%list.
Proof.
  intros Hv Hall.
  change (deliver_all job w (Start line :: map Progress reports ++ [End_]))
    with (deliver_all job (deliver job w (Start line))
            (map Progress reports ++ [End_])).
  rewrite (deliver_reports job reports percents [End_] Hv Hall).
  unfold deliver_all, fold_left, deliver, handler, on_start, on_end, bind,
    resolve, settle, log_call, console_log, bar_do.
  rewrite Hv. cbn. destruct (promise w); cbn;
    rewrite <- !app_assoc; split; reflexivity.
Qed.

Lemma verbose_bar_lifecycle_witness :
  bar (deliver_all job_verbose fresh
         [Start "ffmpeg"; Progress (percent (of_decimal 123456 4));
          Progress (VObject []); End_])
  = [BarStart 100 0; BarUpdate (of_decimal 1235 2); BarUpdate zero; BarStop].
Proof.
  apply (verbose_bar_lifecycle job_verbose fresh "ffmpeg"
           [percent (of_decimal 123456 4); VObject []]
           [of_decimal 1235 2; zero]
           eq_refl).
  repeat constructor.
Defined.



(** X18.  When validation fails the job is rejected with the error of the
    first check that failed, in the order frame stream, output, frame
    rates, background video, and it stays rejected with that error on any
    host and whatever the process signals afterwards. *)
Theorem first_failed_check_wins (host : Host) (fields : list (string * value))
    (evs : list event) :
  let frameStream := lookup "frameStream" fields in
  let output := lookup "output" fields in
  let fps := lookup "fps" fields in
  let bv := lookup "backgroundVideo" fields in
  let outcome := promise (run_job host (VObject fields) evs) in
  (instanceof_Readable frameStream = false ->
     outcome = Rejected (frameStream_error frameStream))
  /\ (instanceof_Readable frameStream = true -> is_string output = false ->
        outcome = Rejected (output_error output))
  /\ (instanceof_Readable frameStream = true -> is_string output = true ->
        fps_set fps = false ->
        outcome = Rejected fps_error)
  /\ (instanceof_Readable frameStream = true -> is_string output = true ->
        fps_set fps = true ->
        truthy bv = true -> backgroundVideo_set bv = false ->
        outcome = Rejected backgroundVideo_error).
Proof.
  intros frameStream output fps bv outcome. subst outcome.
  assert (Hv : violations (VObject fields)
    = ((if instanceof_Readable frameStream then []
        else [frameStream_error frameStream])
       ++ (if is_string output then [] else [output_error output])
       ++ (if fps_set fps then [] else [fps_error])
       ++ (if truthy bv && negb (backgroundVideo_set bv)
           then [backgroundVideo_error] else []))%list).
  { unfold violations. now rewrite typeof_is_string. }
  repeat split.
  - intros Hfs. rewrite Hfs in Hv. cbn [app] in Hv.
    exact (run_job_rejected host fields _ _ evs Hv).
  - intros Hfs Hout. rewrite Hfs, Hout in Hv. cbn [app] in Hv.
    exact (run_job_rejected host fields _ _ evs Hv).
  - intros Hfs Hout Hfps. rewrite Hfs, Hout, Hfps in Hv. cbn [app] in Hv.
    exact (run_job_rejected host fields _ _ evs Hv).
  - intros Hfs Hout Hfps Hbv Hset. rewrite Hfs, Hout, Hfps, Hbv, Hset in Hv.
    cbn [app andb negb] in Hv.
    exact (run_job_rejected host fields _ _ evs Hv).
Qed.

Lemma first_failed_check_wins_witness :
  promise (run_job host_ready config_three_faults []) 
    = Rejected (frameStream_error VUndefined)
  /\ promise (run_job host_ready config_two_faults [Start "ffmpeg"; End_])
    = Rejected fps_error.
Proof.
  split.
  - destruct (first_failed_check_wins host_ready
                [("output", VString "out/video.mp4");
                 ("fps", VObject [("input", num 30)]);
                 ("backgroundVideo", window (VString "bg.mp4") (num 0) (num 5))]
                []) as (Hfirst & _).
    exact (Hfirst eq_refl).
  - destruct (first_failed_check_wins host_ready
                [("frameStream", VReadable 0); ("output", VString "out/video.mp4");
                 ("fps", rates (num 0) (num 30));
                 ("backgroundVideo", window (VString "bg.mp4") (num 0) (num 5))]
                [Start "ffmpeg"; End_]) as (_ & _ & Hthird & _).
    exact (Hthird eq_refl eq_refl eq_refl).
Defined.

(** X19.  The handlers of the process signals never open a stream, create a
    directory or launch a process: after any signals the streams, the
    directories and the processes of a run are those the executor left. *)
Theorem signals_touch_no_resource (host : Host) (config : value)
    (evs : list event) :
  sinks (run_job host config evs) = sinks (snd (encoder host config))
  /\ spawned (run_job host config evs) = spawned (snd (encoder host config))
  /\ made_dirs (run_job host config evs) = made_dirs (snd (encoder host config)).
Proof.
  unfold run_job. destruct (encoder host config) as [[job|] w]; cbn [snd].
  - destruct (deliver_all_resources job evs w) as (-> & -> & ->). repeat split.
  - repeat split.
Qed.

(** X20.  Each end signal calls [resolve] and each error signal calls
    [reject], also once the promise is settled: after any signals the
    number of calls made to the two callbacks has grown by the number of
    end and error signals delivered. *)
Theorem one_call_per_terminal_signal (job : Job) (evs : list event) (w : World) :
  List.length (calls (deliver_all job w evs))
  = (List.length (calls w) + List.length (filter is_terminal evs))%nat.
Proof.
  revert w. induction evs as [|ev evs IH]; intros w; [cbn; lia|].
  change (deliver_all job w (ev :: evs))
    with (deliver_all job (deliver job w ev) evs).
  rewrite IH. cbn [filter]. destruct (is_terminal ev) eqn:Hterm.
  - assert (Hone : List.length (calls (deliver job w ev))
                   = S (List.length (calls w))).
    { destruct ev; try discriminate Hterm.
      - unfold deliver, handler, on_end, resolve, settle, log_call, bind.
        destruct (truthy (job_silent job)); cbn; destruct (promise w); cbn;
          rewrite length_app; cbn; lia.
      - rewrite deliver_error_calls, length_app. cbn. lia. }
    rewrite Hone. cbn [List.length]. lia.
  - destruct (deliver_world job ev w) as (_ & _ & _ & _ & H).
    destruct (H Hterm) as [_ ->]. lia.
Qed.

End Further.
